(** * image-demo: a shallow embedding of [Image.py]

    The Python module keeps an RGBA raster in a NumPy array of shape
    (height, width, 4) and dtype uint8, and offers bounds-checked pixel
    access, Bresenham line drawing and clipped rectangle fill.

    Python integers are unbounded, so they are [Z].  Exceptions are values of
    [exn] carrying the message the code builds.  Methods that mutate
    [self._rgba_data] are functions in a state-and-exception monad over the
    image, so that the buffer left behind by a failing call can be observed.

    Channel values of the embedding are Python ints; floats and strings in a
    channel position are outside the model. *)

From Stdlib Require Import ZArith Lia List Bool String.
From stdpp Require Import base numbers list strings pretty.

Local Open Scope string_scope.
Local Open Scope Z_scope.

(** ** Python values and exceptions *)

Inductive exn :=
| ValueError (msg : string)
| TypeError (msg : string)
| IndexError (msg : string)
| OverflowError (msg : string).

Inductive result (A : Type) :=
| Ok (v : A)
| Raise (e : exn).

Arguments Ok {A} v.
Arguments Raise {A} e.

Definition res_bind {A B} (m : result A) (k : A -> result B) : result B :=
  match m with
  | Ok v => k v
  | Raise e => Raise e
  end.

Declare Scope res_scope.
Delimit Scope res_scope with res.
Bind Scope res_scope with result.

Notation "x <- c1 ;; c2" := (res_bind c1 (fun x => c2))
  (at level 100, c1 at next level, right associativity) : res_scope.

(** [repr] of a Python int, as an f-string prints it with [{x=}]. *)
Definition repr (n : Z) : string := pretty n.

(** A pixel as the code passes it around: the tuple [(r, g, b, a)]. *)
Abbreviation pixel := (Z * Z * Z * Z)%type.

(** ** The [rgba] dataclass *)

Module rgba.

Record t := new { r : Z; g : Z; b : Z; a : Z }.

Definition as_tuple (self : t) : pixel := (r self, g self, b self, a self).

Definition getattr (self : t) (component : string) : Z :=
  if String.eqb component "r" then r self
  else if String.eqb component "g" then g self
  else if String.eqb component "b" then b self
  else a self.

(** The loop body of [__post_init__]; [isinstance(value, int)] holds of
    every channel of the embedding. *)
Fixpoint check_components (self : t) (components : list string) : result unit :=
  match components with
  | [] => Ok tt
  | component :: rest =>
      let value := getattr self component in
      if negb ((0 <=? value) && (value <=? 255))
      then Raise (ValueError
             ("RGBA component " +:+ component +:+ " must be an int from 0 to 255"))
      else check_components self rest
  end.

Definition __post_init__ (self : t) : result unit :=
  check_components self ["r"; "g"; "b"; "a"].

(** The generated constructor: store the fields, then [__post_init__]. *)
Definition __init__ (r g b a : Z) : result t :=
  let self := new r g b a in
  (_ <- __post_init__ self ;; Ok self)%res.

End rgba.

(** A color argument, of the annotated type [Union[rgba, tuple, None]].
    An [rgba] object is mutable after construction, so [PyRgba] holds
    whatever its fields hold at the time of the call. *)
Inductive color :=
| PyNone
| PyRgba (c : rgba.t)
| PyTuple (items : list Z).

(** ** The part of NumPy the module uses

    A uint8 element stores a Python int of [0, 255] as it is.  What happens
    to an int outside that range depends on the NumPy release and on the
    entry point (item assignment converts each int on its own; [np.full]
    casts a whole integer array), so both are parameters of the model. *)

Record numpy := {
  setitem_overflow : Z -> result Z;
  copyto_overflow : Z -> result Z
}.

Definition in_uint8 (n : Z) : bool := (0 <=? n) && (n <=? 255).

Definition setitem_uint8 (np : numpy) (n : Z) : result Z :=
  if in_uint8 n then Ok n else setitem_overflow np n.

Definition copyto_uint8 (np : numpy) (n : Z) : result Z :=
  if in_uint8 n then Ok n else copyto_overflow np n.

Definition cast_pixel (cast : Z -> result Z) (p : pixel) : result pixel :=
  let '(r, g, b, a) := p in
  (r' <- cast r ;; g' <- cast g ;; b' <- cast b ;; a' <- cast a ;;
   Ok (r', g', b', a'))%res.

Fixpoint cast_items (cast : Z -> result Z) (items : list Z) : result (list Z) :=
  match items with
  | [] => Ok []
  | n :: rest =>
      (n' <- cast n ;; rest' <- cast_items cast rest ;; Ok (n' :: rest'))%res
  end.

(** The two behaviours in use, for channels that fit a 64-bit integer.

    NumPy 1.x: an out-of-range int wraps modulo 256. *)
Definition numpy1 : numpy := {|
  setitem_overflow := fun n => Ok (n mod 256);
  copyto_overflow := fun n => Ok (n mod 256)
|}.

(** NumPy 2.x: item assignment refuses an out-of-range Python int, while
    the unsafe array cast of [np.full] still wraps. *)
Definition numpy2 : numpy := {|
  setitem_overflow := fun n =>
    Raise (OverflowError ("Python integer " +:+ repr n +:+ " out of bounds for uint8"));
  copyto_overflow := fun n => Ok (n mod 256)
|}.

(** The array of shape (height, width, 4): a list of rows of pixels. *)
Abbreviation ndarray := (list (list pixel)).

(** An integer index on an axis of the given size; a negative index counts
    from the end. *)
Definition np_index (axis : Z) (i : Z) (size : nat) : result nat :=
  let n := Z.of_nat size in
  if (- n <=? i) && (i <? n)
  then Ok (Z.to_nat (if i <? 0 then i + n else i))
  else Raise (IndexError
         ("index " +:+ repr i +:+ " is out of bounds for axis " +:+ repr axis
          +:+ " with size " +:+ repr n)).

(** [np.full((height, width, 4), fill, dtype=np.uint8)]. *)
Definition np_full (np : numpy) (height width : Z) (fill : pixel) : result ndarray :=
  if (height <? 0) || (width <? 0)
  then Raise (ValueError "negative dimensions are not allowed")
  else if (height =? 0) || (width =? 0)
  then Ok (replicate (Z.to_nat height) [])
  else (v <- cast_pixel (copyto_uint8 np) fill ;;
        Ok (replicate (Z.to_nat height) (replicate (Z.to_nat width) v)))%res.

(** [data[y, x]] *)
Definition np_getitem (data : ndarray) (y x : Z) : result pixel :=
  (iy <- np_index 0 y (length data) ;;
   match data !! iy with
   | None => Raise (IndexError "unreachable")
   | Some row =>
       ix <- np_index 1 x (length row) ;;
       match row !! ix with
       | None => Raise (IndexError "unreachable")
       | Some p => Ok p
       end
   end)%res.

(** [data[y, x] = value] for a 4-tuple [value]: the index is resolved
    first, then the tuple is converted element by element. *)
Definition np_setitem (np : numpy) (data : ndarray) (y x : Z) (value : pixel)
  : result ndarray :=
  (iy <- np_index 0 y (length data) ;;
   match data !! iy with
   | None => Raise (IndexError "unreachable")
   | Some row =>
       ix <- np_index 1 x (length row) ;;
       v <- cast_pixel (setitem_uint8 np) value ;;
       Ok (<[iy := <[ix := v]> row]> data)
   end)%res.

(** The bound of a slice [start:stop] on an axis, as [slice.indices]
    resolves it for step 1. *)
Definition slice_bound (i : Z) (size : nat) : nat :=
  let n := Z.of_nat size in
  Z.to_nat (if i <? 0 then Z.max 0 (i + n) else Z.min i n).

Definition in_slice (start stop : Z) (size : nat) (i : nat) : bool :=
  (slice_bound start size <=? i)%nat && (i <? slice_bound stop size)%nat.

(** [data[y1:y2, x1:x2] = value] for a 4-tuple [value]. *)
Definition np_setslice (np : numpy) (data : ndarray) (y1 y2 x1 x2 : Z)
    (value : pixel) : result ndarray :=
  (v <- cast_pixel (setitem_uint8 np) value ;;
   Ok (imap (fun iy row =>
         if in_slice y1 y2 (length data) iy
         then imap (fun ix p => if in_slice x1 x2 (length row) ix then v else p) row
         else row) data))%res.

Definition fill_all (v : pixel) (data : ndarray) : ndarray :=
  (fun row : list pixel => (fun _ : pixel => v) <$> row) <$> data.

(** [data[:] = value] for an arbitrary Python object [value], on an array
    of shape (height, width, 4): NumPy converts the object to uint8 and
    broadcasts it over the last axis, of size 4.  [None] and an [rgba]
    object are no numbers and no sequences. *)
Definition np_setall (np : numpy) (height width : Z) (data : ndarray)
    (value : color) : result ndarray :=
  match value with
  | PyNone =>
      Raise (TypeError
        "int() argument must be a string, a bytes-like object or a real number, not 'NoneType'")
  | PyRgba _ =>
      Raise (TypeError
        "int() argument must be a string, a bytes-like object or a real number, not 'rgba'")
  | PyTuple items =>
      (items' <- cast_items (setitem_uint8 np) items ;;
       match items' with
       | [v] => Ok (fill_all (v, v, v, v) data)
       | [r; g; b; a] => Ok (fill_all (r, g, b, a) data)
       | _ => Raise (ValueError
                ("could not broadcast input array from shape ("
                 +:+ repr (Z.of_nat (length items')) +:+ ",) into shape ("
                 +:+ repr height +:+ "," +:+ repr width +:+ ",4)"))
       end)%res
  end.

(** ** The [Image] class *)

Module Image.

Record t := new { _width : Z; _height : Z; _rgba_data : ndarray }.

(** The read-only properties. *)
Definition width (self : t) : Z := _width self.
Definition height (self : t) : Z := _height self.

(** Methods run on the image they mutate and leave it behind, whether
    they return or raise. *)
Definition M (A : Type) : Type := t -> result A * t.

Definition ret {A} (v : A) : M A := fun self => (Ok v, self).

Definition raise {A} (e : exn) : M A := fun self => (Raise e, self).

Definition bind {A B} (m : M A) (k : A -> M B) : M B :=
  fun self =>
    match m self with
    | (Ok v, self') => k v self'
    | (Raise e, self') => (Raise e, self')
    end.

Definition lift {A} (r : result A) : M A := fun self => (r, self).

Definition get_self : M t := fun self => (Ok self, self).

Definition set_rgba_data (data : ndarray) : M unit :=
  fun self => (Ok tt, new (_width self) (_height self) data).

(** [try: m  except IndexError: handler] *)
Definition except_IndexError {A} (m : M A) (handler : M A) : M A :=
  fun self =>
    match m self with
    | (Raise (IndexError _), self') => handler self'
    | other => other
    end.

Declare Scope img_scope.
Delimit Scope img_scope with img.
Bind Scope img_scope with M.

Notation "x <- c1 ;; c2" := (bind c1 (fun x => c2))
  (at level 100, c1 at next level, right associativity) : img_scope.

Definition _validate_rgba (value : color) : result pixel :=
  match value with
  | PyNone => Ok (255, 255, 255, 255)
  | PyRgba (rgba.new r g b a) => Ok (r, g, b, a)
  | PyTuple [r; g; b] => Ok (r, g, b, 255)
  | PyTuple [r; g; b; a] => Ok (r, g, b, a)
  | PyTuple _ => Raise (TypeError "Invalid type of RGBA color: tuple")
  end.

Definition bounds_message (x width y height : Z) : string :=
  "X or Y values out of range x=" +:+ repr x +:+ " self.width=" +:+ repr width
  +:+ " y=" +:+ repr y +:+ " self.height=" +:+ repr height.

Definition _check_bounds (self : t) (x y : Z) : result unit :=
  if negb ((0 <=? x) && (x <=? width self) && ((0 <=? y) && (y <=? height self)))
  then Raise (IndexError (bounds_message x (width self) y (height self)))
  else Ok tt.

Definition get_pixel (self : t) (x y : Z) : result pixel :=
  (_ <- _check_bounds self x y ;;
   np_getitem (_rgba_data self) y x)%res.

Definition pixel_message (x y : Z) : string :=
  "Pixel (x=" +:+ repr x +:+ ", y=" +:+ repr y +:+ ") is out of bounds!".

Definition sorted2 (p q : Z) : Z * Z := if q <? p then (q, p) else (p, q).

Section WithNumpy.

Variable np : numpy.

Definition __init__ (width height : Z) (fill_color : color) : result t :=
  (fill <- _validate_rgba fill_color ;;
   data <- np_full np height width fill ;;
   Ok (new width height data))%res.

Definition set_pixel (x y : Z) (value : color) : M unit :=
  (self <- get_self ;;
   _ <- lift (_check_bounds self x y) ;;
   rhs <- lift (_validate_rgba value) ;;
   data <- lift (np_setitem np (_rgba_data self) y x rhs) ;;
   set_rgba_data data)%img.

Definition clear (color : color) : M unit :=
  (self <- get_self ;;
   data <- lift (np_setall np (height self) (width self) (_rgba_data self) color) ;;
   set_rgba_data data)%img.

Definition plot (x y : Z) (line_color : pixel) : M unit :=
  let '(r, g, b, a) := line_color in
  except_IndexError (set_pixel x y (PyTuple [r; g; b; a]))
                    (raise (IndexError (pixel_message x y))).

(** The loop of the branch [dx > dy]; [n] counts the iterations of
    [range(dx + 1)] still to run. *)
Fixpoint line_loop_x (n : nat) (x y deviation dx dy sx_step sy_step : Z)
    (line_color : pixel) : M unit :=
  match n with
  | O => ret tt
  | S n' =>
      (_ <- plot x y line_color ;;
       let x := x + sx_step in
       let deviation := deviation - dy in
       if deviation <? 0
       then line_loop_x n' x (y + sy_step) (deviation + dx) dx dy
                        sx_step sy_step line_color
       else line_loop_x n' x y deviation dx dy sx_step sy_step line_color)%img
  end.

(** The loop of the [else] branch, over [range(dy + 1)]. *)
Fixpoint line_loop_y (n : nat) (x y deviation dx dy sx_step sy_step : Z)
    (line_color : pixel) : M unit :=
  match n with
  | O => ret tt
  | S n' =>
      (_ <- plot x y line_color ;;
       let y := y + sy_step in
       let deviation := deviation - dx in
       if deviation <? 0
       then line_loop_y n' (x + sx_step) y (deviation + dy) dx dy
                        sx_step sy_step line_color
       else line_loop_y n' x y deviation dx dy sx_step sy_step line_color)%img
  end.

Definition line (sx sy ex ey : Z) (color : color) : M unit :=
  (line_color <- lift (_validate_rgba color) ;;
   let dx := Z.abs (sx - ex) in
   let dy := Z.abs (sy - ey) in
   let sx_step := if sx <? ex then 1 else -1 in
   let sy_step := if sy <? ey then 1 else -1 in
   if dy <? dx
   then line_loop_x (Z.to_nat (dx + 1)) sx sy (dx / 2) dx dy
                    sx_step sy_step line_color
   else line_loop_y (Z.to_nat (dy + 1)) sx sy (dy / 2) dx dy
                    sx_step sy_step line_color)%img.

Definition rectangle (tx ty bx by_ : Z) (color : color) : M unit :=
  (fill <- lift (_validate_rgba color) ;;
   self <- get_self ;;
   let '(x1, x2) := sorted2 tx bx in
   let '(y1, y2) := sorted2 ty by_ in
   let x1 := Z.max 0 x1 in
   let y1 := Z.max 0 y1 in
   let x2 := Z.min (width self - 1) x2 in
   let y2 := Z.min (height self - 1) y2 in
   if (x2 <? x1) || (y2 <? y1)
   then ret tt
   else
     data <- lift (np_setslice np (_rgba_data self) y1 (y2 + 1) x1 (x2 + 1) fill) ;;
     set_rgba_data data)%img.

End WithNumpy.

End Image.

(** ** Notions used to state the properties *)

(** Every channel of the tuple is an integer of [0, 255]. *)
Definition valid_pixel (p : pixel) : bool :=
  let '(r, g, b, a) := p in
  in_uint8 r && in_uint8 g && in_uint8 b && in_uint8 a.

(** The buffer has the shape (height, width) the constructor gave it. *)
Definition shaped (self : Image.t) : bool :=
  (0 <=? Image.width self) && (0 <=? Image.height self)
  && (length (Image._rgba_data self) =? Z.to_nat (Image.height self))%nat
  && forallb (fun row : list pixel => (length row =? Z.to_nat (Image.width self))%nat)
             (Image._rgba_data self).

(** The coordinate addresses a pixel of the buffer. *)
Definition inside (self : Image.t) (p : Z * Z) : bool :=
  (0 <=? p.1) && (p.1 <? Image.width self) && (0 <=? p.2) && (p.2 <? Image.height self).

(** The stored pixel at a non-negative coordinate, when there is one. *)
Definition pixel_at (data : ndarray) (x y : Z) : option pixel :=
  match data !! Z.to_nat y with
  | Some row => row !! Z.to_nat x
  | None => None
  end.

(** The coordinates one Bresenham loop visits, in order: [u] runs along the
    major axis and [v] along the minor one. *)
Fixpoint raster (n : nat) (u v deviation du dv su sv : Z) : list (Z * Z) :=
  match n with
  | O => []
  | S n' =>
      (u, v) ::
      (let u := u + su in
       let deviation := deviation - dv in
       if deviation <? 0
       then raster n' u (v + sv) (deviation + du) du dv su sv
       else raster n' u v deviation du dv su sv)
  end.

(** The coordinates [(x, y)] that [line] passes to [set_pixel], in order. *)
Definition line_points (sx sy ex ey : Z) : list (Z * Z) :=
  let dx := Z.abs (sx - ex) in
  let dy := Z.abs (sy - ey) in
  let sx_step := if sx <? ex then 1 else -1 in
  let sy_step := if sy <? ey then 1 else -1 in
  if dy <? dx
  then raster (Z.to_nat (dx + 1)) sx sy (dx / 2) dx dy sx_step sy_step
  else prod_swap <$> raster (Z.to_nat (dy + 1)) sy sx (dy / 2) dy dx sy_step sx_step.

(** Plotting a sequence of coordinates, stopping at the first failure. *)
Fixpoint plot_all (np : numpy) (pts : list (Z * Z)) (line_color : pixel)
  : Image.M unit :=
  match pts with
  | [] => Image.ret tt
  | (x, y) :: rest =>
      Image.bind (Image.plot np x y line_color)
                 (fun _ => plot_all np rest line_color)
  end.

(** [self'] is [self] with the pixels of [pts] set to [c]. *)
Definition painted (pts : list (Z * Z)) (c : pixel) (self self' : Image.t) : Prop :=
  shaped self' = true /\
  Image.width self' = Image.width self /\
  Image.height self' = Image.height self /\
  forall x y, 0 <= x -> 0 <= y ->
    pixel_at (Image._rgba_data self') x y =
    if bool_decide ((x, y) ∈ pts) then Some c
    else pixel_at (Image._rgba_data self) x y.

(** The fixtures of the test suite: [Image(10, 10)] and [rgba(255, 0, 0)]. *)
Definition small_image : Image.t :=
  Image.new 10 10 (replicate 10 (replicate 10 (255, 255, 255, 255))).

Definition red : color := PyRgba (rgba.new 255 0 0 255).

(** How far a line with extents [big >= small] has moved along the minor
    axis after [k] steps along the major one. *)
Definition minor_offset (big small k : Z) : Z :=
  (k * small + (big - 1 - big / 2)) / big.

(** The [k]-th coordinate of [line_points], in closed form. *)
Definition line_point (sx sy ex ey k : Z) : Z * Z :=
  let dx := Z.abs (sx - ex) in
  let dy := Z.abs (sy - ey) in
  let sx_step := if sx <? ex then 1 else -1 in
  let sy_step := if sy <? ey then 1 else -1 in
  if dy <? dx
  then (sx + k * sx_step, sy + sy_step * minor_offset dx dy k)
  else (sx + sx_step * minor_offset dy dx k, sy + k * sy_step).

(** Step [k] of a line with extents [big >= small] falls exactly halfway
    between two pixels of the minor axis. *)
Definition tie (big small k : Z) : bool :=
  (0 <? big) && ((2 * k * small) mod (2 * big) =? big).

Definition has_tie (big small : Z) : bool :=
  existsb (tie big small) (seqZ 0 (big + 1)).

(** The Chebyshev distance of two coordinates: 1 for 8-neighbours. *)
Definition chebyshev (p q : Z * Z) : Z :=
  Z.max (Z.abs (q.1 - p.1)) (Z.abs (q.2 - p.2)).

(** ** Notions used for the invariants of the class *)

(** The images a program can hold: built by the constructor with the
    given dimensions, then left behind by any call of a mutating method,
    whether the call returned or raised. *)
Inductive reachable (np : numpy) (width height : Z) : Image.t -> Prop :=
| reach_init fill_color self :
    Image.__init__ np width height fill_color = Ok self ->
    reachable np width height self
| reach_set_pixel self x y value :
    reachable np width height self ->
    reachable np width height (snd (Image.set_pixel np x y value self))
| reach_clear self color :
    reachable np width height self ->
    reachable np width height (snd (Image.clear np color self))
| reach_line self sx sy ex ey color :
    reachable np width height self ->
    reachable np width height (snd (Image.line np sx sy ex ey color self))
| reach_rectangle self tx ty bx by_ color :
    reachable np width height self ->
    reachable np width height (snd (Image.rectangle np tx ty bx by_ color self)).

(** Every stored channel is an integer of [0, 255]. *)
Definition all_uint8 (self : Image.t) : bool :=
  forallb (forallb valid_pixel) (Image._rgba_data self).

(** What the dtype uint8 guarantees of any release: a conversion that does
    not raise yields a value of [0, 255]. *)
Definition uint8_casts (np : numpy) : Prop :=
  forall n v,
    (setitem_overflow np n = Ok v -> in_uint8 v = true) /\
    (copyto_overflow np n = Ok v -> in_uint8 v = true).

(** ** The demo driver [main.py]

    The driver draws random colors and positions and hands the finished
    images to [Image.save], which is PIL's business: a demo function of the
    model returns what it hands to [save].  The random module is a
    parameter: [draw a b] is the sample [random.randint(a, b)] returns on a
    non-empty range, together with the generator's next state. *)

Module main.

Section WithRandom.

Variable rng : Type.
Variable draw : Z -> Z -> rng -> Z * rng.
Variable np : numpy.

Definition D (A : Type) : Type := rng -> result A * rng.

Definition ret {A} (v : A) : D A := fun s => (Ok v, s).

Definition bind {A B} (m : D A) (k : A -> D B) : D B :=
  fun s =>
    match m s with
    | (Ok v, s') => k v s'
    | (Raise e, s') => (Raise e, s')
    end.

Definition lift {A} (r : result A) : D A := fun s => (r, s).

(** A method call on a local image: an exception leaves the function. *)
Definition call (m : Image.M unit) (image : Image.t) : D Image.t :=
  fun s =>
    match m image with
    | (Ok _, image') => (Ok image', s)
    | (Raise e, _) => (Raise e, s)
    end.

(** [for a in items: st = body(a, st)] *)
Fixpoint for_ {A S} (items : list A) (body : A -> S -> D S) (st : S) : D S :=
  match items with
  | [] => ret st
  | a :: rest => bind (body a st) (for_ rest body)
  end.

(** [random.randint(a, b)], with the message of CPython 3.12 on an empty
    range. *)
Definition randint (a b : Z) : D Z :=
  fun s =>
    if b <? a
    then (Raise (ValueError ("empty range in randrange(" +:+ repr a +:+ ", "
                             +:+ repr (b + 1) +:+ ")")), s)
    else let '(n, s') := draw a b s in (Ok n, s').

Definition rand_rgb : D rgba.t :=
  bind (randint 0 255) (fun r =>
  bind (randint 0 255) (fun g =>
  bind (randint 0 255) (fun b =>
  lift (rgba.__init__ r g b 255)))).

Definition rand_pos (width height : Z) : D (Z * Z) :=
  bind (randint 0 (width - 1)) (fun x =>
  bind (randint 0 (height - 1)) (fun y =>
  ret (x, y))).

(** [f"{frame:04}"] *)
Definition format_04 (n : Z) : string :=
  let sign := if n <? 0 then "-" else "" in
  let digits := repr (Z.abs n) in
  sign +:+ String.concat "" (replicate (4 - String.length sign - String.length digits) "0")
       +:+ digits.

Definition create_image : D (list (string * Image.t)) :=
  for_ (seqZ 0 2) (fun frame saved =>
    bind (lift (Image.__init__ np 512 512 PyNone)) (fun img =>
    bind (for_ (seqZ 0 (Image.width img)) (fun y img =>
            for_ (seqZ 0 (Image.width img)) (fun x img =>
              bind rand_rgb (fun color =>
              call (Image.set_pixel np x y (PyRgba color)) img)) img) img)
         (fun img =>
    ret (saved ++ [("test" +:+ format_04 frame +:+ ".png", img)])%list))) [].

Definition create_line_image : D (string * Image.t) :=
  let width := 512 in
  let height := 512 in
  let num_lines := 1000 in
  bind (lift (Image.__init__ np width height PyNone)) (fun image =>
  bind (for_ (seqZ 0 num_lines) (fun _ image =>
          bind (rand_pos width height) (fun '(sx, sy) =>
          bind (rand_pos width height) (fun '(ex, ey) =>
          bind rand_rgb (fun color =>
          call (Image.line np sx sy ex ey (PyRgba color)) image)))) image)
       (fun image =>
  ret ("lines_image.png", image))).

Definition create_rectangle_image : D (string * Image.t) :=
  let width := 512 in
  let height := 512 in
  let num_rects := 300 in
  bind (lift (Image.__init__ np width height PyNone)) (fun img =>
  bind (for_ (seqZ 0 num_rects) (fun _ img =>
          bind (rand_pos width height) (fun '(x1, y1) =>
          bind (rand_pos width height) (fun '(x2, y2) =>
          bind rand_rgb (fun color =>
          call (Image.rectangle np x1 y1 x2 y2 (PyRgba color)) img)))) img)
       (fun img =>
  ret ("rectangles_image.png", img))).

Definition main : D (list (string * Image.t)) := create_image.

End WithRandom.

End main.

(** Every pixel of the buffer has valid channels and alpha 255. *)
Definition opaque (self : Image.t) : Prop :=
  forall x y, inside self (x, y) = true ->
    exists r g b,
      pixel_at (Image._rgba_data self) x y = Some (r, g, b, 255) /\
      valid_pixel (r, g, b, 255) = true.

(** The images of the demos: 512 by 512, well shaped and opaque. *)
Definition demo_image (self : Image.t) : Prop :=
  shaped self = true /\ Image.width self = 512 /\ Image.height self = 512 /\
  opaque self.

(** The samples of [random.randint(a, b)] lie in [a, b]. *)
Definition draws_in_range {rng : Type} (draw : Z -> Z -> rng -> Z * rng) : Prop :=
  forall a b s, a <= b -> a <= (draw a b s).1 <= b.

(** A generator for examples: it always returns the lower bound. *)
Definition lowest_draw (a b : Z) (s : unit) : Z * unit := (a, s).

(** ** Basic facts about the NumPy layer *)

Lemma in_uint8_spec n : in_uint8 n = true <-> 0 <= n <= 255.
Proof. unfold in_uint8. rewrite andb_true_iff, !Z.leb_le. tauto. Qed.

Lemma valid_pixel_spec r g b a :
  valid_pixel (r, g, b, a) = true <->
  0 <= r <= 255 /\ 0 <= g <= 255 /\ 0 <= b <= 255 /\ 0 <= a <= 255.
Proof.
  unfold valid_pixel. rewrite !andb_true_iff, !in_uint8_spec. tauto.
Qed.

(** The dataclass constructor accepts exactly the valid channel values. *)
Lemma rgba_init_valid r g b a :
  rgba.__init__ r g b a = Ok (rgba.new r g b a) <-> valid_pixel (r, g, b, a) = true.
Proof.
  unfold rgba.__init__, rgba.__post_init__, valid_pixel, in_uint8.
  cbn [rgba.check_components rgba.getattr String.eqb Ascii.eqb Bool.eqb
       rgba.r rgba.g rgba.b rgba.a].
  destruct ((0 <=? r) && (r <=? 255)); cbn [negb andb res_bind];
    [| split; intros H; discriminate H].
  destruct ((0 <=? g) && (g <=? 255)); cbn [negb andb res_bind];
    [| split; intros H; discriminate H].
  destruct ((0 <=? b) && (b <=? 255)); cbn [negb andb res_bind];
    [| split; intros H; discriminate H].
  destruct ((0 <=? a) && (a <=? 255)); cbn [negb andb res_bind];
    [| split; intros H; discriminate H].
  split; reflexivity.
Qed.

Lemma cast_pixel_setitem np p :
  valid_pixel p = true -> cast_pixel (setitem_uint8 np) p = Ok p.
Proof.
  destruct p as [[[r g] b] a]. unfold valid_pixel.
  rewrite !andb_true_iff. intros [[[Hr Hg] Hb] Ha].
  unfold cast_pixel, setitem_uint8. rewrite Hr, Hg, Hb, Ha. reflexivity.
Qed.

Lemma cast_pixel_copyto np p :
  valid_pixel p = true -> cast_pixel (copyto_uint8 np) p = Ok p.
Proof.
  destruct p as [[[r g] b] a]. unfold valid_pixel.
  rewrite !andb_true_iff. intros [[[Hr Hg] Hb] Ha].
  unfold cast_pixel, copyto_uint8. rewrite Hr, Hg, Hb, Ha. reflexivity.
Qed.

Lemma np_index_ok axis i size :
  0 <= i < Z.of_nat size -> np_index axis i size = Ok (Z.to_nat i).
Proof.
  intros H. unfold np_index.
  replace (- Z.of_nat size <=? i) with true by (symmetry; apply Z.leb_le; lia).
  replace (i <? Z.of_nat size) with true by (symmetry; apply Z.ltb_lt; lia).
  replace (i <? 0) with false by (symmetry; apply Z.ltb_ge; lia).
  reflexivity.
Qed.

Lemma np_index_high axis i size :
  Z.of_nat size <= i -> exists msg, np_index axis i size = Raise (IndexError msg).
Proof.
  intros H. unfold np_index.
  replace (i <? Z.of_nat size) with false by (symmetry; apply Z.ltb_ge; lia).
  rewrite andb_false_r. eauto.
Qed.

Lemma shaped_spec self :
  shaped self = true <->
  0 <= Image.width self /\ 0 <= Image.height self /\
  length (Image._rgba_data self) = Z.to_nat (Image.height self) /\
  forall i row, Image._rgba_data self !! i = Some row ->
                length row = Z.to_nat (Image.width self).
Proof.
  unfold shaped. rewrite !andb_true_iff, !Z.leb_le, Nat.eqb_eq, forallb_forall.
  split.
  - intros [[[Hw Hh] Hlen] Hrows]. repeat split; try assumption.
    intros i row Hi. apply Nat.eqb_eq, Hrows.
    apply list_elem_of_In, list_elem_of_lookup. eauto.
  - intros (Hw & Hh & Hlen & Hrows). repeat split; try assumption.
    intros row Hin. apply Nat.eqb_eq.
    apply list_elem_of_In, list_elem_of_lookup in Hin as [i Hi]. eauto.
Qed.

Lemma inside_spec self x y :
  inside self (x, y) = true <->
  0 <= x < Image.width self /\ 0 <= y < Image.height self.
Proof.
  unfold inside. simpl. rewrite !andb_true_iff, !Z.leb_le, !Z.ltb_lt. tauto.
Qed.

Lemma inside_false_spec self x y :
  inside self (x, y) = false <->
  ~ (0 <= x < Image.width self /\ 0 <= y < Image.height self).
Proof.
  rewrite <- inside_spec. destruct (inside self (x, y)); split; congruence.
Qed.

(** ** Pixel access *)

Lemma check_bounds_ok self x y :
  0 <= x <= Image.width self -> 0 <= y <= Image.height self ->
  Image._check_bounds self x y = Ok tt.
Proof.
  intros Hx Hy. unfold Image._check_bounds.
  replace (0 <=? x) with true by (symmetry; apply Z.leb_le; lia).
  replace (x <=? Image.width self) with true by (symmetry; apply Z.leb_le; lia).
  replace (0 <=? y) with true by (symmetry; apply Z.leb_le; lia).
  replace (y <=? Image.height self) with true by (symmetry; apply Z.leb_le; lia).
  reflexivity.
Qed.

Lemma check_bounds_fail self x y :
  ~ (0 <= x <= Image.width self /\ 0 <= y <= Image.height self) ->
  Image._check_bounds self x y =
  Raise (IndexError (Image.bounds_message x (Image.width self) y (Image.height self))).
Proof.
  intros H. unfold Image._check_bounds.
  destruct ((0 <=? x) && (x <=? Image.width self)
            && ((0 <=? y) && (y <=? Image.height self))) eqn:E; [| reflexivity].
  exfalso. apply H.
  rewrite !andb_true_iff, !Z.leb_le in E. lia.
Qed.

Lemma pixel_at_inside self x y :
  shaped self = true -> inside self (x, y) = true ->
  exists row p,
    Image._rgba_data self !! Z.to_nat y = Some row /\
    length row = Z.to_nat (Image.width self) /\
    row !! Z.to_nat x = Some p /\
    pixel_at (Image._rgba_data self) x y = Some p.
Proof.
  intros Hs Hin. apply shaped_spec in Hs as (Hw & Hh & Hlen & Hrows).
  apply inside_spec in Hin as [Hx Hy].
  destruct (lookup_lt_is_Some_2 (Image._rgba_data self) (Z.to_nat y)) as [row Hrow];
    [lia |].
  pose proof (Hrows _ _ Hrow) as Hlr.
  destruct (lookup_lt_is_Some_2 row (Z.to_nat x)) as [p Hp]; [lia |].
  exists row, p. unfold pixel_at. rewrite Hrow. auto.
Qed.

Lemma get_pixel_inside self x y :
  shaped self = true -> inside self (x, y) = true ->
  exists p, pixel_at (Image._rgba_data self) x y = Some p /\
            Image.get_pixel self x y = Ok p.
Proof.
  intros Hs Hin.
  destruct (pixel_at_inside _ _ _ Hs Hin) as (row & p & Hrow & Hlr & Hp & Hat).
  exists p. split; [assumption |].
  apply shaped_spec in Hs as (Hw & Hh & Hlen & _).
  apply inside_spec in Hin as [Hx Hy].
  unfold Image.get_pixel. rewrite check_bounds_ok by lia. simpl.
  unfold np_getitem. rewrite np_index_ok by lia. simpl. rewrite Hrow.
  rewrite np_index_ok by lia. simpl. rewrite Hp. reflexivity.
Qed.

(** Two images of one shape that hold the same pixels answer [get_pixel]
    alike. *)
Lemma get_pixel_ext self self' x y :
  shaped self = true -> shaped self' = true ->
  Image.width self' = Image.width self -> Image.height self' = Image.height self ->
  inside self (x, y) = true ->
  pixel_at (Image._rgba_data self') x y = pixel_at (Image._rgba_data self) x y ->
  Image.get_pixel self' x y = Image.get_pixel self x y.
Proof.
  intros Hs Hs' Hw Hh Hin Heq.
  assert (Hin' : inside self' (x, y) = true).
  { apply inside_spec. apply inside_spec in Hin. lia. }
  destruct (get_pixel_inside _ _ _ Hs Hin) as (p & Hp & ->).
  destruct (get_pixel_inside _ _ _ Hs' Hin') as (p' & Hp' & ->).
  congruence.
Qed.

Lemma pixel_at_insert data x y x' y' row v :
  0 <= x -> 0 <= y -> 0 <= x' -> 0 <= y' ->
  data !! Z.to_nat y = Some row -> (Z.to_nat x < length row)%nat ->
  pixel_at (<[Z.to_nat y := <[Z.to_nat x := v]> row]> data) x' y' =
  if (x' =? x) && (y' =? y) then Some v else pixel_at data x' y'.
Proof.
  intros Hx Hy Hx' Hy' Hrow Hlt. unfold pixel_at.
  destruct (Z.eqb_spec y' y) as [-> | Hne].
  - rewrite list_lookup_insert_eq by (eapply lookup_lt_Some; eassumption).
    rewrite Hrow, andb_true_r.
    destruct (Z.eqb_spec x' x) as [-> | Hnx].
    + apply list_lookup_insert_eq. assumption.
    + apply list_lookup_insert_ne. lia.
  - rewrite andb_false_r. rewrite list_lookup_insert_ne by lia. reflexivity.
Qed.

(** What a successful [set_pixel] leaves behind. *)
Lemma set_pixel_inside np self x y color c :
  shaped self = true -> inside self (x, y) = true ->
  Image._validate_rgba color = Ok c -> valid_pixel c = true ->
  exists self',
    Image.set_pixel np x y color self = (Ok tt, self') /\
    shaped self' = true /\
    Image.width self' = Image.width self /\
    Image.height self' = Image.height self /\
    forall x' y', 0 <= x' -> 0 <= y' ->
      pixel_at (Image._rgba_data self') x' y' =
      if (x' =? x) && (y' =? y) then Some c
      else pixel_at (Image._rgba_data self) x' y'.
Proof.
  intros Hs Hin Hval Hc.
  destruct (pixel_at_inside _ _ _ Hs Hin) as (row & p & Hrow & Hlr & Hp & _).
  pose proof Hs as Hshape.
  apply shaped_spec in Hshape as (Hw & Hh & Hlen & Hrows).
  apply inside_spec in Hin as [Hx Hy].
  exists (Image.new (Image._width self) (Image._height self)
            (<[Z.to_nat y := <[Z.to_nat x := c]> row]> (Image._rgba_data self))).
  split; [| split; [| split; [reflexivity | split; [reflexivity |]]]].
  - unfold Image.set_pixel, Image.bind, Image.get_self, Image.lift,
      Image.set_rgba_data.
    rewrite check_bounds_ok by lia. rewrite Hval.
    unfold np_setitem. rewrite np_index_ok by lia. cbn [res_bind]. rewrite Hrow.
    rewrite np_index_ok by lia. cbn [res_bind].
    rewrite cast_pixel_setitem by assumption. reflexivity.
  - apply shaped_spec. simpl. unfold Image.width, Image.height in *. simpl.
    repeat split; try assumption.
    + rewrite length_insert. assumption.
    + intros i r Hi.
      destruct (decide (i = Z.to_nat y)) as [-> | Hne].
      * rewrite list_lookup_insert_eq in Hi by lia.
        injection Hi as <-. rewrite length_insert. assumption.
      * rewrite list_lookup_insert_ne in Hi by congruence. eauto.
  - intros x' y' Hx' Hy'. simpl.
    apply pixel_at_insert; first [lia | assumption].
Qed.

(** Outside the buffer [set_pixel] raises an [IndexError], from
    [_check_bounds] or from the array, and writes nothing. *)
Lemma set_pixel_outside np self x y color c :
  shaped self = true -> inside self (x, y) = false ->
  Image._validate_rgba color = Ok c ->
  exists msg, Image.set_pixel np x y color self = (Raise (IndexError msg), self).
Proof.
  intros Hs Hout Hval.
  apply shaped_spec in Hs as (Hw & Hh & Hlen & Hrows).
  apply inside_false_spec in Hout.
  unfold Image.set_pixel, Image.bind, Image.get_self, Image.lift.
  destruct (decide (0 <= x <= Image.width self /\ 0 <= y <= Image.height self))
    as [Hb | Hb].
  - rewrite check_bounds_ok by lia. rewrite Hval. unfold np_setitem.
    destruct (decide (y = Image.height self)) as [Hyh | Hyh].
    + destruct (np_index_high 0 y (length (Image._rgba_data self))) as [msg ->];
        [lia |]. simpl. eauto.
    + rewrite np_index_ok by lia. simpl.
      destruct (lookup_lt_is_Some_2 (Image._rgba_data self) (Z.to_nat y))
        as [row Hrow]; [lia |].
      rewrite Hrow. pose proof (Hrows _ _ Hrow) as Hlr.
      destruct (np_index_high 1 x (length row)) as [msg ->]; [lia |].
      simpl. eauto.
  - rewrite check_bounds_fail by assumption. eauto.
Qed.

(** ** Plotting *)

Ltac elem_of_cases :=
  repeat case_bool_decide; try reflexivity; exfalso;
  repeat match goal with
    | H : context [_ ∈ _ :: _] |- _ => rewrite elem_of_cons in H
    | H : context [_ ∈ []] |- _ => rewrite elem_of_nil in H
    end;
  intuition congruence.

Lemma painted_nil c self : shaped self = true -> painted [] c self self.
Proof.
  intros Hs. split; [assumption | split; [reflexivity | split; [reflexivity |]]].
  intros x y _ _.
  rewrite bool_decide_eq_false_2; [reflexivity | apply not_elem_of_nil].
Qed.

Lemma painted_cons x0 y0 pts c self self1 self' :
  painted [(x0, y0)] c self self1 -> painted pts c self1 self' ->
  painted ((x0, y0) :: pts) c self self'.
Proof.
  intros (Hs1 & Hw1 & Hh1 & Hp1) (Hs' & Hw' & Hh' & Hp').
  repeat split; try congruence.
  intros x y Hx Hy. rewrite Hp', Hp1 by assumption.
  elem_of_cases.
Qed.

Lemma painted_get_pixel pts c self self' x y :
  shaped self = true -> painted pts c self self' -> inside self (x, y) = true ->
  Image.get_pixel self' x y =
  if bool_decide ((x, y) ∈ pts) then Ok c else Image.get_pixel self x y.
Proof.
  intros Hs (Hs' & Hw & Hh & Hp) Hin.
  assert (Hin' : inside self' (x, y) = true).
  { apply inside_spec. apply inside_spec in Hin. lia. }
  destruct (get_pixel_inside _ _ _ Hs Hin) as (p & Hat & ->).
  destruct (get_pixel_inside _ _ _ Hs' Hin') as (p' & Hat' & ->).
  apply inside_spec in Hin. rewrite Hp in Hat' by lia.
  destruct (bool_decide ((x, y) ∈ pts)); congruence.
Qed.

Lemma validate_rgba_tuple4 r g b a :
  Image._validate_rgba (PyTuple [r; g; b; a]) = Ok (r, g, b, a).
Proof. reflexivity. Qed.

Lemma plot_inside np self x y c :
  shaped self = true -> inside self (x, y) = true -> valid_pixel c = true ->
  exists self', Image.plot np x y c self = (Ok tt, self') /\
                painted [(x, y)] c self self'.
Proof.
  intros Hs Hin Hc. destruct c as [[[r g] b] a].
  destruct (set_pixel_inside np self x y (PyTuple [r; g; b; a]) (r, g, b, a)
              Hs Hin eq_refl Hc) as (self' & Hset & Hs' & Hw & Hh & Hp).
  exists self'. split.
  - unfold Image.plot, Image.except_IndexError. rewrite Hset. reflexivity.
  - repeat split; try assumption. intros x' y' Hx' Hy'. rewrite Hp by assumption.
    destruct (Z.eqb_spec x' x) as [-> | Hnx]; destruct (Z.eqb_spec y' y) as [-> | Hny];
      simpl; elem_of_cases.
Qed.

Lemma plot_outside np self x y c :
  shaped self = true -> inside self (x, y) = false ->
  Image.plot np x y c self = (Raise (IndexError (Image.pixel_message x y)), self).
Proof.
  intros Hs Hout. destruct c as [[[r g] b] a].
  destruct (set_pixel_outside np self x y (PyTuple [r; g; b; a]) (r, g, b, a)
              Hs Hout eq_refl) as [msg Hset].
  unfold Image.plot, Image.except_IndexError. rewrite Hset. reflexivity.
Qed.

Lemma plot_all_inside np pts c self :
  shaped self = true -> valid_pixel c = true ->
  forallb (inside self) pts = true ->
  exists self', plot_all np pts c self = (Ok tt, self') /\ painted pts c self self'.
Proof.
  revert self. induction pts as [| [x y] pts IH]; intros self Hs Hc Hall.
  - exists self. split; [reflexivity | by apply painted_nil].
  - simpl in Hall. apply andb_true_iff in Hall as [Hin Hall].
    destruct (plot_inside np self x y c Hs Hin Hc) as (self1 & Hplot & Hp1).
    pose proof Hp1 as (Hs1 & Hw1 & Hh1 & _).
    destruct (IH self1) as (self' & Hrest & Hp'); [assumption | assumption | |].
    { rewrite forallb_forall in *. intros [px py] Hpin.
      specialize (Hall _ Hpin). apply inside_spec. apply inside_spec in Hall. lia. }
    exists self'. split.
    + simpl. unfold Image.bind. rewrite Hplot. assumption.
    + eapply painted_cons; eassumption.
Qed.

Lemma plot_all_app np pre rest c self :
  plot_all np (pre ++ rest) c self =
  Image.bind (plot_all np pre c) (fun _ => plot_all np rest c) self.
Proof.
  revert self. induction pre as [| [x y] pre IH]; intros self.
  - reflexivity.
  - simpl. unfold Image.bind in *.
    destruct (Image.plot np x y c self) as [[[] | e] self1]; [| reflexivity].
    apply IH.
Qed.

Lemma plot_all_outside np pre p post c self :
  shaped self = true -> valid_pixel c = true ->
  forallb (inside self) pre = true -> inside self p = false ->
  exists self',
    plot_all np (pre ++ p :: post) c self =
      (Raise (IndexError (Image.pixel_message p.1 p.2)), self') /\
    painted pre c self self'.
Proof.
  intros Hs Hc Hpre Hp.
  destruct (plot_all_inside np pre c self Hs Hc Hpre) as (self' & Hrun & Hpaint).
  exists self'. split; [| assumption].
  rewrite plot_all_app. unfold Image.bind. rewrite Hrun.
  destruct p as [px py]. simpl. unfold Image.bind.
  pose proof Hpaint as (Hs' & Hw & Hh & _).
  rewrite plot_outside; [reflexivity | assumption |].
  apply inside_false_spec. apply inside_false_spec in Hp. lia.
Qed.

(** The two loops of [line] plot the coordinates of [raster]. *)
Lemma line_loop_x_plot_all np n x y deviation dx dy sx_step sy_step c self :
  Image.line_loop_x np n x y deviation dx dy sx_step sy_step c self =
  plot_all np (raster n x y deviation dx dy sx_step sy_step) c self.
Proof.
  revert x y deviation self. induction n as [| n IH]; intros x y deviation self.
  - reflexivity.
  - simpl. unfold Image.bind.
    destruct (Image.plot np x y c self) as [[[] | e] self1]; [| reflexivity].
    destruct (deviation - dy <? 0); apply IH.
Qed.

Lemma line_loop_y_plot_all np n x y deviation dx dy sx_step sy_step c self :
  Image.line_loop_y np n x y deviation dx dy sx_step sy_step c self =
  plot_all np (prod_swap <$> raster n y x deviation dy dx sy_step sx_step) c self.
Proof.
  revert x y deviation self. induction n as [| n IH]; intros x y deviation self.
  - reflexivity.
  - simpl. unfold Image.bind.
    destruct (Image.plot np x y c self) as [[[] | e] self1]; [| reflexivity].
    destruct (deviation - dx <? 0); apply IH.
Qed.

Lemma line_plot_all np sx sy ex ey color c self :
  Image._validate_rgba color = Ok c ->
  Image.line np sx sy ex ey color self =
  plot_all np (line_points sx sy ex ey) c self.
Proof.
  intros Hval. unfold Image.line, Image.bind, Image.lift, line_points.
  rewrite Hval. destruct (Z.abs (sy - ey) <? Z.abs (sx - ex)).
  - apply line_loop_x_plot_all.
  - apply line_loop_y_plot_all.
Qed.

(** ** The rasterised coordinates *)

Lemma raster_length n u v deviation du dv su sv :
  length (raster n u v deviation du dv su sv) = n.
Proof.
  revert u v deviation. induction n as [| n IH]; intros u v deviation.
  - reflexivity.
  - simpl. destruct (deviation - dv <? 0); rewrite IH; reflexivity.
Qed.

(** Consecutive coordinates are one step apart on the major axis and at
    most one on the minor axis. *)
Lemma raster_step n u v deviation du dv su sv k p q :
  raster n u v deviation du dv su sv !! k = Some p ->
  raster n u v deviation du dv su sv !! S k = Some q ->
  q.1 = p.1 + su /\ (q.2 = p.2 \/ q.2 = p.2 + sv).
Proof.
  revert u v deviation k. induction n as [| n IH]; intros u v deviation k Hp Hq.
  - discriminate.
  - destruct k as [| k].
    + simpl in Hp. injection Hp as <-. simpl in Hq.
      destruct n as [| n]; [destruct (deviation - dv <? 0); discriminate |].
      destruct (deviation - dv <? 0); simpl in Hq; injection Hq as <-; simpl; lia.
    + simpl in Hp, Hq. destruct (deviation - dv <? 0); eapply IH; eassumption.
Qed.

Lemma raster_lookup n u v deviation du dv su sv k :
  0 < du -> 0 <= dv <= du -> 0 <= deviation < du -> (k < n)%nat ->
  raster n u v deviation du dv su sv !! k =
  Some (u + Z.of_nat k * su,
        v + sv * ((Z.of_nat k * dv + (du - 1 - deviation)) / du)).
Proof.
  intros Hdu Hdv. revert u v deviation k.
  induction n as [| n IH]; intros u v deviation k Hdev Hk; [lia |].
  destruct k as [| k].
  - simpl. rewrite Z.div_small by lia. do 2 f_equal; lia.
  - simpl raster. rewrite lookup_cons_ne_0 by lia. simpl Init.Nat.pred.
    destruct (Z.ltb_spec (deviation - dv) 0).
    + rewrite IH by lia.
      replace (Z.of_nat (S k) * dv + (du - 1 - deviation))
        with (Z.of_nat k * dv + (du - 1 - (deviation - dv + du)) + 1 * du) by lia.
      rewrite Z.div_add by lia. do 2 f_equal; lia.
    + rewrite IH by lia. do 2 f_equal; [lia |]. do 3 f_equal. lia.
Qed.

Lemma minor_offset_range big small k :
  0 < big -> 0 <= small <= big -> 0 <= k <= big ->
  0 <= minor_offset big small k <= small.
Proof.
  intros Hb Hs Hk. unfold minor_offset.
  assert (0 <= big / 2 < big) by (split; [apply Z.div_pos | apply Z.div_lt]; lia).
  split.
  - apply Z.div_pos; nia.
  - apply Z.lt_succ_r, Z.div_lt_upper_bound; nia.
Qed.

Lemma minor_offset_0 big small : 0 <= big -> minor_offset big small 0 = 0.
Proof.
  intros Hb. unfold minor_offset.
  destruct (decide (big = 0)) as [-> | Hne]; [reflexivity |].
  assert (0 <= big / 2 < big) by (split; [apply Z.div_pos | apply Z.div_lt]; lia).
  apply Z.div_small. lia.
Qed.

Lemma minor_offset_end big small :
  0 < big -> 0 <= small <= big -> minor_offset big small big = small.
Proof.
  intros Hb Hs. unfold minor_offset.
  assert (0 <= big / 2 < big) by (split; [apply Z.div_pos | apply Z.div_lt]; lia).
  replace (big * small + (big - 1 - big / 2))
    with ((big - 1 - big / 2) + small * big) by lia.
  rewrite Z.div_add by lia. rewrite Z.div_small by lia. lia.
Qed.

Lemma line_points_length sx sy ex ey :
  length (line_points sx sy ex ey) =
  Z.to_nat (Z.max (Z.abs (sx - ex)) (Z.abs (sy - ey)) + 1).
Proof.
  unfold line_points.
  destruct (Z.ltb_spec (Z.abs (sy - ey)) (Z.abs (sx - ex))).
  - rewrite raster_length. lia.
  - rewrite length_fmap, raster_length. lia.
Qed.

Lemma line_points_lookup sx sy ex ey k :
  0 <= k <= Z.max (Z.abs (sx - ex)) (Z.abs (sy - ey)) ->
  line_points sx sy ex ey !! Z.to_nat k = Some (line_point sx sy ex ey k).
Proof.
  intros Hk. unfold line_points, line_point, minor_offset.
  destruct (Z.ltb_spec (Z.abs (sy - ey)) (Z.abs (sx - ex))) as [Hlt | Hge].
  - assert (0 <= Z.abs (sx - ex) / 2 < Z.abs (sx - ex))
      by (split; [apply Z.div_pos | apply Z.div_lt]; lia).
    rewrite raster_lookup by lia. rewrite Z2Nat.id by lia. reflexivity.
  - rewrite list_lookup_fmap.
    destruct (decide (Z.abs (sy - ey) = 0)) as [H0 | H0].
    + assert (k = 0) as -> by lia. rewrite H0.
      replace (Z.abs (sx - ex)) with 0 by lia. simpl.
      unfold prod_swap. simpl. rewrite Z.div_0_r. do 2 f_equal; lia.
    + assert (0 <= Z.abs (sy - ey) / 2 < Z.abs (sy - ey))
        by (split; [apply Z.div_pos | apply Z.div_lt]; lia).
      rewrite raster_lookup by lia. rewrite Z2Nat.id by lia. reflexivity.
Qed.

Lemma line_points_lookup_nat sx sy ex ey i :
  (i < length (line_points sx sy ex ey))%nat ->
  line_points sx sy ex ey !! i = Some (line_point sx sy ex ey (Z.of_nat i)).
Proof.
  rewrite line_points_length. intros Hi.
  rewrite <- (Nat2Z.id i) at 1. apply line_points_lookup. lia.
Qed.

Lemma line_points_lookup_Some sx sy ex ey i p :
  line_points sx sy ex ey !! i = Some p ->
  0 <= Z.of_nat i <= Z.max (Z.abs (sx - ex)) (Z.abs (sy - ey)) /\
  p = line_point sx sy ex ey (Z.of_nat i).
Proof.
  intros Hi. pose proof (lookup_lt_Some _ _ _ Hi) as Hlt.
  rewrite line_points_lookup_nat in Hi by assumption.
  rewrite line_points_length in Hlt. split; [lia | congruence].
Qed.

Lemma line_point_start sx sy ex ey : line_point sx sy ex ey 0 = (sx, sy).
Proof.
  unfold line_point. rewrite !minor_offset_0 by lia.
  destruct (Z.abs (sy - ey) <? Z.abs (sx - ex)); f_equal; lia.
Qed.

Lemma line_point_end sx sy ex ey :
  line_point sx sy ex ey (Z.max (Z.abs (sx - ex)) (Z.abs (sy - ey))) = (ex, ey).
Proof.
  unfold line_point.
  destruct (Z.ltb_spec (Z.abs (sy - ey)) (Z.abs (sx - ex))) as [Hlt | Hge].
  - rewrite Z.max_l by lia. rewrite minor_offset_end by lia.
    destruct (Z.ltb_spec sx ex), (Z.ltb_spec sy ey); f_equal; lia.
  - rewrite Z.max_r by lia.
    destruct (decide (Z.abs (sy - ey) = 0)) as [H0 | H0].
    + rewrite H0, minor_offset_0 by lia. f_equal; lia.
    + rewrite minor_offset_end by lia.
      destruct (Z.ltb_spec sx ex), (Z.ltb_spec sy ey); f_equal; lia.
Qed.

Lemma line_points_head sx sy ex ey :
  head (line_points sx sy ex ey) = Some (sx, sy).
Proof.
  rewrite head_lookup. rewrite line_points_lookup_nat.
  - simpl. rewrite line_point_start. reflexivity.
  - rewrite line_points_length. lia.
Qed.

Lemma line_points_last sx sy ex ey :
  last (line_points sx sy ex ey) = Some (ex, ey).
Proof.
  rewrite last_lookup. rewrite line_points_lookup_nat.
  - rewrite line_points_length.
    replace (Z.of_nat (Init.Nat.pred (Z.to_nat
               (Z.max (Z.abs (sx - ex)) (Z.abs (sy - ey)) + 1))))
      with (Z.max (Z.abs (sx - ex)) (Z.abs (sy - ey))) by lia.
    rewrite line_point_end. reflexivity.
  - rewrite line_points_length. lia.
Qed.

(** The coordinate along the longer axis advances by one at every step. *)
Lemma line_point_major sx sy ex ey k :
  if Z.abs (sy - ey) <? Z.abs (sx - ex)
  then (line_point sx sy ex ey k).1 = sx + k * (if sx <? ex then 1 else -1)
  else (line_point sx sy ex ey k).2 = sy + k * (if sy <? ey then 1 else -1).
Proof.
  unfold line_point. destruct (Z.abs (sy - ey) <? Z.abs (sx - ex)); reflexivity.
Qed.

Lemma line_points_major_NoDup sx sy ex ey :
  if Z.abs (sy - ey) <? Z.abs (sx - ex)
  then NoDup ((line_points sx sy ex ey).*1)
  else NoDup ((line_points sx sy ex ey).*2).
Proof.
  pose proof (line_point_major sx sy ex ey) as Hmajor.
  destruct (Z.abs (sy - ey) <? Z.abs (sx - ex)); apply NoDup_alt;
    intros i j u Hi Hj; rewrite list_lookup_fmap in Hi, Hj;
    destruct (line_points sx sy ex ey !! i) as [p |] eqn:Ep; try discriminate;
    destruct (line_points sx sy ex ey !! j) as [q |] eqn:Eq; try discriminate;
    apply line_points_lookup_Some in Ep as [_ ->];
    apply line_points_lookup_Some in Eq as [_ ->];
    simpl in Hi, Hj; injection Hi as Hi; injection Hj as Hj;
    rewrite Hmajor in Hi, Hj.
  - destruct (sx <? ex); lia.
  - destruct (sy <? ey); lia.
Qed.

Lemma line_points_NoDup sx sy ex ey : NoDup (line_points sx sy ex ey).
Proof.
  pose proof (line_points_major_NoDup sx sy ex ey) as H.
  destruct (Z.abs (sy - ey) <? Z.abs (sx - ex));
    eapply NoDup_fmap_1; eassumption.
Qed.

(** Consecutive coordinates are 8-neighbours. *)
Lemma line_points_connected sx sy ex ey i p q :
  line_points sx sy ex ey !! i = Some p ->
  line_points sx sy ex ey !! S i = Some q ->
  chebyshev p q = 1.
Proof.
  unfold line_points, chebyshev.
  destruct (Z.abs (sy - ey) <? Z.abs (sx - ex)); intros Hp Hq.
  - destruct (raster_step _ _ _ _ _ _ _ _ _ _ _ Hp Hq) as [H1 H2].
    destruct (sx <? ex), (sy <? ey); lia.
  - rewrite list_lookup_fmap in Hp, Hq.
    destruct (raster _ _ _ _ _ _ _ _ !! i) as [p' |] eqn:Ep; [| discriminate].
    destruct (raster _ _ _ _ _ _ _ _ !! S i) as [q' |] eqn:Eq; [| discriminate].
    simpl in Hp, Hq. injection Hp as <-. injection Hq as <-.
    destruct (raster_step _ _ _ _ _ _ _ _ _ _ _ Ep Eq) as [H1 H2].
    destruct p' as [pu pv], q' as [qu qv]. simpl in *.
    destruct (sx <? ex), (sy <? ey); lia.
Qed.

(** The rasterised coordinates stay in the bounding box of the endpoints. *)
Lemma line_point_box sx sy ex ey k :
  0 <= k <= Z.max (Z.abs (sx - ex)) (Z.abs (sy - ey)) ->
  Z.min sx ex <= (line_point sx sy ex ey k).1 <= Z.max sx ex /\
  Z.min sy ey <= (line_point sx sy ex ey k).2 <= Z.max sy ey.
Proof.
  intros Hk. unfold line_point.
  destruct (Z.ltb_spec (Z.abs (sy - ey)) (Z.abs (sx - ex))) as [Hlt | Hge].
  - pose proof (minor_offset_range (Z.abs (sx - ex)) (Z.abs (sy - ey)) k) as Hm.
    destruct (Z.ltb_spec sx ex), (Z.ltb_spec sy ey); simpl; lia.
  - destruct (decide (Z.abs (sy - ey) = 0)) as [H0 | H0].
    + assert (k = 0) as -> by lia. rewrite minor_offset_0 by lia. simpl. lia.
    + pose proof (minor_offset_range (Z.abs (sy - ey)) (Z.abs (sx - ex)) k) as Hm.
      destruct (Z.ltb_spec sx ex), (Z.ltb_spec sy ey); simpl; lia.
Qed.

Lemma line_points_inside self sx sy ex ey :
  inside self (sx, sy) = true -> inside self (ex, ey) = true ->
  forallb (inside self) (line_points sx sy ex ey) = true.
Proof.
  intros Hs He. apply forallb_forall. intros [x y] Hin.
  apply list_elem_of_In, list_elem_of_lookup in Hin as [i Hi].
  apply line_points_lookup_Some in Hi as [Hk Hp].
  pose proof (line_point_box sx sy ex ey _ Hk) as Hbox. rewrite <- Hp in Hbox.
  simpl in Hbox. apply inside_spec. apply inside_spec in Hs, He. lia.
Qed.

(** ** Swapping the endpoints *)

(** Rounding [a / big] from the start and from the end of the line agree
    unless [a / big] lies exactly halfway between two integers. *)
Lemma half_sum big a :
  0 < big ->
  ((a + (big - 1 - big / 2)) / big + ((big - 1 - big / 2) - a) / big = 0 /\
   (2 * a) mod (2 * big) <> big) \/
  ((a + (big - 1 - big / 2)) / big + ((big - 1 - big / 2) - a) / big = -1 /\
   (2 * a) mod (2 * big) = big).
Proof.
  intros Hb.
  pose proof (Z.div_mod big 2 ltac:(lia)) as Eh.
  pose proof (Z.mod_pos_bound big 2 ltac:(lia)) as Be.
  set (c := big - 1 - big / 2) in *.
  pose proof (Z.div_mod (a + c) big ltac:(lia)) as E1.
  pose proof (Z.mod_pos_bound (a + c) big ltac:(lia)) as B1.
  pose proof (Z.div_mod (c - a) big ltac:(lia)) as E2.
  pose proof (Z.mod_pos_bound (c - a) big ltac:(lia)) as B2.
  pose proof (Z.div_mod (2 * a) (2 * big) ltac:(lia)) as E3.
  pose proof (Z.mod_pos_bound (2 * a) (2 * big) ltac:(lia)) as B3.
  subst c.
  generalize dependent (big / 2). intros h.
  generalize dependent (big mod 2). intros e Eh Be.
  generalize dependent ((a + (big - 1 - h)) / big). intros q1.
  generalize dependent ((a + (big - 1 - h)) mod big). intros r1 E1 B1.
  generalize dependent ((big - 1 - h - a) / big). intros q2.
  generalize dependent ((big - 1 - h - a) mod big). intros r2 E2 B2.
  generalize dependent ((2 * a) / (2 * big)). intros q3.
  generalize dependent ((2 * a) mod (2 * big)). intros r3 E3 B3.
  assert (Hs : q1 + q2 = 0 \/ q1 + q2 = -1) by nia.
  destruct Hs as [Hs | Hs]; [left | right]; (split; [assumption |]).
  - intros ->.
    assert (e = 0) by lia. subst e.
    assert (q3 = q1) by nia. subst q3.
    assert (q2 = - q1 - 1) by nia. lia.
  - assert (e = 0) by nia. subst e.
    assert (r1 = big - 1) by nia.
    assert (q3 = q1) by nia. nia.
Qed.

Lemma minor_offset_swap big small k :
  0 < big ->
  minor_offset big small k + minor_offset big small (big - k) =
  if tie big small k then small - 1 else small.
Proof.
  intros Hb. unfold minor_offset, tie.
  replace (0 <? big) with true by (symmetry; apply Z.ltb_lt; lia).
  replace ((big - k) * small + (big - 1 - big / 2))
    with ((big - 1 - big / 2 - k * small) + small * big) by lia.
  rewrite Z.div_add by lia.
  replace (2 * k * small) with (2 * (k * small)) by lia.
  destruct (half_sum big (k * small) Hb) as [[Hsum Hne] | [Hsum Heq]].
  - apply Z.eqb_neq in Hne. rewrite Hne. simpl. lia.
  - rewrite Heq, Z.eqb_refl. simpl. lia.
Qed.

Lemma tie_small_0 big k : tie big 0 k = false.
Proof.
  unfold tie. destruct (Z.ltb_spec 0 big); [| reflexivity]. simpl.
  replace (2 * k * 0) with 0 by lia. rewrite Z.mod_0_l by lia.
  apply Z.eqb_neq. lia.
Qed.

(** The [k]-th coordinate of the swapped line, counted from its end, against
    the [k]-th coordinate of the line. *)
Lemma line_point_swap sx sy ex ey k :
  let big := Z.max (Z.abs (sx - ex)) (Z.abs (sy - ey)) in
  let small := Z.min (Z.abs (sx - ex)) (Z.abs (sy - ey)) in
  0 <= k <= big ->
  line_point ex ey sx sy (big - k) = line_point sx sy ex ey k <->
  tie big small k = false.
Proof.
  intros big small Hk. subst big small. unfold line_point.
  replace (Z.abs (ex - sx)) with (Z.abs (sx - ex)) by lia.
  replace (Z.abs (ey - sy)) with (Z.abs (sy - ey)) by lia.
  destruct (Z.ltb_spec (Z.abs (sy - ey)) (Z.abs (sx - ex))) as [Hlt | Hge].
  - rewrite Z.max_l, Z.min_r in * by lia.
    pose proof (minor_offset_swap (Z.abs (sx - ex)) (Z.abs (sy - ey)) k
                  ltac:(lia)) as Hsum.
    pose proof (minor_offset_range (Z.abs (sx - ex)) (Z.abs (sy - ey)) k
                  ltac:(lia) ltac:(lia) ltac:(lia)) as R1.
    pose proof (minor_offset_range (Z.abs (sx - ex)) (Z.abs (sy - ey))
                  (Z.abs (sx - ex) - k) ltac:(lia) ltac:(lia) ltac:(lia)) as R2.
    destruct (tie (Z.abs (sx - ex)) (Z.abs (sy - ey)) k);
      (split; [intros [= H1 H2] | intros H; try discriminate H; f_equal]);
      destruct (Z.ltb_spec sx ex), (Z.ltb_spec ex sx),
               (Z.ltb_spec sy ey), (Z.ltb_spec ey sy); lia.
  - rewrite Z.max_r, Z.min_l in * by lia.
    destruct (decide (Z.abs (sy - ey) = 0)) as [H0 | H0].
    + assert (Hdx : Z.abs (sx - ex) = 0) by lia.
      rewrite H0, Hdx in *. assert (k = 0) as -> by lia.
      rewrite tie_small_0. simpl. rewrite !minor_offset_0 by lia.
      split; [reflexivity | intros _; f_equal; lia].
    + pose proof (minor_offset_swap (Z.abs (sy - ey)) (Z.abs (sx - ex)) k
                    ltac:(lia)) as Hsum.
      pose proof (minor_offset_range (Z.abs (sy - ey)) (Z.abs (sx - ex)) k
                    ltac:(lia) ltac:(lia) ltac:(lia)) as R1.
      pose proof (minor_offset_range (Z.abs (sy - ey)) (Z.abs (sx - ex))
                    (Z.abs (sy - ey) - k) ltac:(lia) ltac:(lia) ltac:(lia)) as R2.
      destruct (tie (Z.abs (sy - ey)) (Z.abs (sx - ex)) k);
        (split; [intros [= H1 H2] | intros H; try discriminate H; f_equal]);
        destruct (Z.ltb_spec sx ex), (Z.ltb_spec ex sx),
                 (Z.ltb_spec sy ey), (Z.ltb_spec ey sy); lia.
Qed.

(** Coordinates of the line and of the swapped line can only coincide at
    mirrored positions. *)
Lemma line_point_swap_index sx sy ex ey j k :
  let big := Z.max (Z.abs (sx - ex)) (Z.abs (sy - ey)) in
  0 <= j <= big -> 0 <= k <= big ->
  line_point ex ey sx sy j = line_point sx sy ex ey k -> j = big - k.
Proof.
  intros big Hj Hk Heq. subst big.
  pose proof (line_point_major sx sy ex ey k) as Hf.
  pose proof (line_point_major ex ey sx sy j) as Hr.
  replace (Z.abs (ex - sx)) with (Z.abs (sx - ex)) in Hr by lia.
  replace (Z.abs (ey - sy)) with (Z.abs (sy - ey)) in Hr by lia.
  rewrite Heq in Hr.
  destruct (Z.ltb_spec (Z.abs (sy - ey)) (Z.abs (sx - ex))) as [Hlt | Hge].
  - rewrite Hf in Hr. destruct (Z.ltb_spec sx ex), (Z.ltb_spec ex sx); lia.
  - rewrite Hf in Hr. destruct (Z.ltb_spec sy ey), (Z.ltb_spec ey sy); lia.
Qed.

Lemma has_tie_false big small :
  has_tie big small = false <-> forall k, 0 <= k <= big -> tie big small k = false.
Proof.
  unfold has_tie. split.
  - intros H k Hk. destruct (tie big small k) eqn:E; [| reflexivity].
    assert (existsb (tie big small) (seqZ 0 (big + 1)) = true); [| congruence].
    apply existsb_exists. exists k. split; [| assumption].
    apply list_elem_of_In, elem_of_seqZ. lia.
  - intros H. destruct (existsb _ _) eqn:E; [| reflexivity].
    apply existsb_exists in E as (k & Hin & Hk).
    apply list_elem_of_In, elem_of_seqZ in Hin. rewrite H in Hk by lia. discriminate.
Qed.

(** Lines with no halfway step: odd longer extent, axis-aligned, diagonal. *)
Lemma has_tie_false_simple big small :
  Z.odd big = true \/ small = 0 \/ small = big -> has_tie big small = false.
Proof.
  intros H. apply has_tie_false. intros k Hk. unfold tie.
  destruct (Z.ltb_spec 0 big) as [Hb | Hb]; [| reflexivity]. simpl.
  apply Z.eqb_neq. intros Heq. destruct H as [Hodd | [-> | ->]].
  - pose proof (Z.div_mod (2 * k * small) (2 * big) ltac:(lia)) as E.
    rewrite Heq in E.
    rewrite <- Z.negb_even, negb_true_iff in Hodd.
    assert (Z.even big = true); [| congruence].
    apply Z.even_spec. exists (k * small - big * (2 * k * small / (2 * big))). lia.
  - replace (2 * k * 0) with 0 in Heq by lia. rewrite Z.mod_0_l in Heq by lia. lia.
  - replace (2 * k * big) with (k * (2 * big)) in Heq by lia.
    rewrite Z.mod_mul in Heq by lia. lia.
Qed.

Lemma line_points_swap_reverse sx sy ex ey :
  has_tie (Z.max (Z.abs (sx - ex)) (Z.abs (sy - ey)))
          (Z.min (Z.abs (sx - ex)) (Z.abs (sy - ey))) = false ->
  line_points ex ey sx sy = reverse (line_points sx sy ex ey).
Proof.
  intros Hno. apply list_eq. intros i.
  pose proof (line_points_length sx sy ex ey) as Hlen.
  pose proof (line_points_length ex ey sx sy) as Hlen'.
  replace (Z.abs (ex - sx)) with (Z.abs (sx - ex)) in Hlen' by lia.
  replace (Z.abs (ey - sy)) with (Z.abs (sy - ey)) in Hlen' by lia.
  set (big := Z.max (Z.abs (sx - ex)) (Z.abs (sy - ey))) in *.
  destruct (decide (i < length (line_points sx sy ex ey))%nat) as [Hi | Hi].
  - rewrite reverse_lookup by assumption.
    rewrite !line_points_lookup_nat by lia. f_equal.
    rewrite Hlen.
    replace (Z.of_nat i)
      with (big - Z.of_nat (Z.to_nat (big + 1) - S i)) by lia.
    apply line_point_swap; [lia |].
    apply has_tie_false; [assumption | lia].
  - rewrite !lookup_ge_None_2; [reflexivity | rewrite length_reverse; lia | lia].
Qed.

Lemma line_points_swap_same sx sy ex ey :
  (forall p, p ∈ line_points sx sy ex ey <-> p ∈ line_points ex ey sx sy) <->
  has_tie (Z.max (Z.abs (sx - ex)) (Z.abs (sy - ey)))
          (Z.min (Z.abs (sx - ex)) (Z.abs (sy - ey))) = false.
Proof.
  split.
  - intros Hsame. apply has_tie_false. intros k Hk.
    destruct (tie _ _ k) eqn:Etie; [exfalso | reflexivity].
    assert (Hin : line_point sx sy ex ey k ∈ line_points sx sy ex ey).
    { apply list_elem_of_lookup. exists (Z.to_nat k). by apply line_points_lookup. }
    apply Hsame, list_elem_of_lookup in Hin as [j Hj].
    apply line_points_lookup_Some in Hj as [Hjr Hj].
    replace (Z.abs (ex - sx)) with (Z.abs (sx - ex)) in Hjr by lia.
    replace (Z.abs (ey - sy)) with (Z.abs (sy - ey)) in Hjr by lia.
    symmetry in Hj. pose proof Hj as Hidx.
    apply line_point_swap_index in Hidx; [| lia | lia].
    rewrite Hidx in Hj. apply line_point_swap in Hj; [congruence | lia].
  - intros Hno p. rewrite (line_points_swap_reverse _ _ _ _ Hno).
    rewrite elem_of_reverse. reflexivity.
Qed.

(** ** Rectangle fill *)

Lemma sorted2_min_max p q : Image.sorted2 p q = (Z.min p q, Z.max p q).
Proof.
  unfold Image.sorted2. destruct (Z.ltb_spec q p); f_equal; lia.
Qed.

Lemma in_slice_spec start stop size i :
  0 <= start -> 0 <= stop <= Z.of_nat size -> 0 <= i ->
  in_slice start stop size (Z.to_nat i) = (start <=? i) && (i <? stop).
Proof.
  intros Hstart Hstop Hi. unfold in_slice, slice_bound.
  replace (start <? 0) with false by (symmetry; apply Z.ltb_ge; lia).
  replace (stop <? 0) with false by (symmetry; apply Z.ltb_ge; lia).
  cbv beta iota zeta.
  destruct (Z.leb_spec start i), (Z.ltb_spec i stop); cbn [andb].
  - apply andb_true_iff. split; [apply Nat.leb_le | apply Nat.ltb_lt]; lia.
  - apply andb_false_iff. right. apply Nat.ltb_ge. lia.
  - apply andb_false_iff. left. apply Nat.leb_gt. lia.
  - apply andb_false_iff. right. apply Nat.ltb_ge. lia.
Qed.

Lemma pixel_at_setslice data x y y1 y2 x1 x2 v width :
  0 <= x < width -> 0 <= y < Z.of_nat (length data) ->
  0 <= y1 -> 0 <= y2 <= Z.of_nat (length data) ->
  0 <= x1 -> 0 <= x2 <= width ->
  (forall i row, data !! i = Some row -> Z.of_nat (length row) = width) ->
  pixel_at
    (imap (fun iy (row : list pixel) =>
       if in_slice y1 y2 (length data) iy
       then imap (fun ix (p : pixel) =>
              if in_slice x1 x2 (length row) ix then v else p) row
       else row) data) x y =
  if (x1 <=? x) && (x <? x2) && ((y1 <=? y) && (y <? y2)) then Some v
  else pixel_at data x y.
Proof.
  intros Hx Hy Hy1 Hy2 Hx1 Hx2 Hrows. unfold pixel_at.
  rewrite list_lookup_imap.
  destruct (lookup_lt_is_Some_2 data (Z.to_nat y)) as [row Hrow]; [lia |].
  rewrite Hrow. simpl. pose proof (Hrows _ _ Hrow) as Hlr.
  rewrite in_slice_spec by lia.
  destruct ((y1 <=? y) && (y <? y2)); [| rewrite andb_false_r; reflexivity].
  rewrite andb_true_r, list_lookup_imap.
  destruct (lookup_lt_is_Some_2 row (Z.to_nat x)) as [p Hp]; [lia |].
  rewrite Hp. simpl. rewrite in_slice_spec by lia.
  destruct ((x1 <=? x) && (x <? x2)); reflexivity.
Qed.

Lemma rectangle_outside np self tx ty bx by_ color c :
  Image._validate_rgba color = Ok c ->
  Z.min (Image.width self - 1) (Z.max tx bx) < Z.max 0 (Z.min tx bx) \/
  Z.min (Image.height self - 1) (Z.max ty by_) < Z.max 0 (Z.min ty by_) ->
  Image.rectangle np tx ty bx by_ color self = (Ok tt, self).
Proof.
  intros Hval Hempty.
  unfold Image.rectangle, Image.bind, Image.lift, Image.get_self, Image.ret.
  rewrite Hval, !sorted2_min_max.
  replace ((Z.min (Image.width self - 1) (Z.max tx bx) <? Z.max 0 (Z.min tx bx))
           || (Z.min (Image.height self - 1) (Z.max ty by_) <? Z.max 0 (Z.min ty by_)))
    with true; [reflexivity |].
  symmetry. apply orb_true_iff. rewrite !Z.ltb_lt. assumption.
Qed.

Lemma rectangle_filled np self tx ty bx by_ color c :
  shaped self = true ->
  Image._validate_rgba color = Ok c -> valid_pixel c = true ->
  let x1 := Z.max 0 (Z.min tx bx) in
  let x2 := Z.min (Image.width self - 1) (Z.max tx bx) in
  let y1 := Z.max 0 (Z.min ty by_) in
  let y2 := Z.min (Image.height self - 1) (Z.max ty by_) in
  x1 <= x2 -> y1 <= y2 ->
  exists self',
    Image.rectangle np tx ty bx by_ color self = (Ok tt, self') /\
    shaped self' = true /\
    Image.width self' = Image.width self /\
    Image.height self' = Image.height self /\
    forall x y, inside self (x, y) = true ->
      pixel_at (Image._rgba_data self') x y =
      if (x1 <=? x) && (x <=? x2) && ((y1 <=? y) && (y <=? y2)) then Some c
      else pixel_at (Image._rgba_data self) x y.
Proof.
  intros Hs Hval Hc x1 x2 y1 y2 Hxs Hys.
  pose proof Hs as Hshape.
  apply shaped_spec in Hshape as (Hw & Hh & Hlen & Hrows).
  eexists. split; [| split; [| split; [| split]]].
  - unfold Image.rectangle, Image.bind, Image.lift, Image.get_self,
      Image.set_rgba_data.
    rewrite Hval, !sorted2_min_max. fold x1 x2 y1 y2.
    replace ((x2 <? x1) || (y2 <? y1)) with false.
    2:{ symmetry. apply orb_false_iff. rewrite !Z.ltb_ge. auto. }
    unfold np_setslice. rewrite cast_pixel_setitem by assumption.
    cbn [res_bind]. reflexivity.
  - apply shaped_spec. cbn [Image._rgba_data Image.width Image.height
      Image._width Image._height]. unfold Image.width, Image.height in *.
    split; [assumption | split; [assumption | split]].
    + rewrite length_imap. assumption.
    + intros i row Hi. rewrite list_lookup_imap in Hi.
      destruct (Image._rgba_data self !! i) as [row0 |] eqn:Erow; [| discriminate].
      simpl in Hi. injection Hi as <-.
      destruct (in_slice _ _ _ i); [rewrite length_imap |]; eauto.
  - reflexivity.
  - reflexivity.
  - intros x y Hin. apply inside_spec in Hin as [Hx Hy].
    cbn [Image._rgba_data].
    rewrite (pixel_at_setslice _ x y y1 (y2 + 1) x1 (x2 + 1) c (Image.width self));
      try (subst x1 x2 y1 y2; lia).
    + replace (x <? x2 + 1) with (x <=? x2)
        by (destruct (Z.leb_spec x x2), (Z.ltb_spec x (x2 + 1)); lia || reflexivity).
      replace (y <? y2 + 1) with (y <=? y2)
        by (destruct (Z.leb_spec y y2), (Z.ltb_spec y (y2 + 1)); lia || reflexivity).
      reflexivity.
    + intros i row Hi. rewrite (Hrows _ _ Hi). lia.
Qed.

(** ** Construction *)

Lemma init_shaped np width height fill_color c :
  0 <= width -> 0 <= height ->
  Image._validate_rgba fill_color = Ok c -> valid_pixel c = true ->
  exists self,
    Image.__init__ np width height fill_color = Ok self /\
    shaped self = true /\
    Image.width self = width /\ Image.height self = height /\
    forall x y, inside self (x, y) = true ->
      pixel_at (Image._rgba_data self) x y = Some c.
Proof.
  intros Hw Hh Hval Hc. unfold Image.__init__, np_full. rewrite Hval.
  cbn [res_bind].
  replace ((height <? 0) || (width <? 0)) with false.
  2:{ symmetry. apply orb_false_iff. rewrite !Z.ltb_ge. auto. }
  destruct ((height =? 0) || (width =? 0)) eqn:Ezero.
  - eexists. split; [reflexivity |]. cbn [res_bind].
    apply orb_true_iff in Ezero. rewrite !Z.eqb_eq in Ezero.
    split; [| split; [reflexivity | split; [reflexivity |]]].
    + apply shaped_spec. cbn. split; [assumption | split; [assumption | split]].
      * apply length_replicate.
      * intros i row Hi. apply lookup_replicate in Hi as [-> Hi]. simpl. lia.
    + intros x y Hin. apply inside_spec in Hin. cbn in Hin. lia.
  - rewrite cast_pixel_copyto by assumption. cbn [res_bind].
    eexists. split; [reflexivity |].
    split; [| split; [reflexivity | split; [reflexivity |]]].
    + apply shaped_spec. cbn. split; [assumption | split; [assumption | split]].
      * apply length_replicate.
      * intros i row Hi. apply lookup_replicate in Hi as [-> Hi].
        apply length_replicate.
    + intros x y Hin. apply inside_spec in Hin. cbn in Hin.
      unfold pixel_at. cbn [Image._rgba_data].
      rewrite lookup_replicate_2 by lia. apply lookup_replicate_2. lia.
Qed.

(** ** The first coordinate outside the image *)

Lemma forallb_first_false {A} (f : A -> bool) (l : list A) :
  forallb f l = false ->
  exists pre p post, l = (pre ++ p :: post)%list /\ forallb f pre = true /\ f p = false.
Proof.
  induction l as [| a l IH]; intros H; [discriminate |].
  simpl in H. destruct (f a) eqn:Ea.
  - simpl in H. destruct (IH H) as (pre & p & post & -> & Hpre & Hp).
    exists (a :: pre), p, post. simpl. rewrite Ea, Hpre. auto.
  - exists [], a, l. auto.
Qed.

Lemma small_image_init np : Image.__init__ np 10 10 PyNone = Ok small_image.
Proof. reflexivity. Qed.

Lemma red_init : rgba.__init__ 255 0 0 255 = Ok (rgba.new 255 0 0 255).
Proof. reflexivity. Qed.

(** * The properties of the specification *)

(** C1 (violated by the code, see [Image._validate_rgba]): a tuple with a
    channel outside [0, 255] should be refused with the [ValueError] of the
    [rgba] dataclass.  The code hands every 3-tuple and 4-tuple through
    unchecked: the tuple [(300, 0, 0)] is normalised to [(300, 0, 0, 255)],
    while [rgba(300, 0, 0)] is refused.  What [set_pixel] then does is up to
    NumPy: release 1.x stores the wrapped channel 44, release 2.x raises
    [OverflowError]; [Image(1, 1, (300, 0, 0))] stores 44 in both. *)
Theorem validate_rgba_tuple_unchecked :
  (forall r g b, Image._validate_rgba (PyTuple [r; g; b]) = Ok (r, g, b, 255)) /\
  (forall r g b a, Image._validate_rgba (PyTuple [r; g; b; a]) = Ok (r, g, b, a)) /\
  rgba.__init__ 300 0 0 255 =
    Raise (ValueError "RGBA component r must be an int from 0 to 255") /\
  fst (Image.set_pixel numpy1 0 0 (PyTuple [300; 0; 0]) small_image) = Ok tt /\
  Image.get_pixel (snd (Image.set_pixel numpy1 0 0 (PyTuple [300; 0; 0]) small_image))
                  0 0 = Ok (44, 0, 0, 255) /\
  Image.set_pixel numpy2 0 0 (PyTuple [300; 0; 0]) small_image =
    (Raise (OverflowError "Python integer 300 out of bounds for uint8"), small_image) /\
  Image.__init__ numpy1 1 1 (PyTuple [300; 0; 0]) =
    Ok (Image.new 1 1 [[(44, 0, 0, 255)]]) /\
  Image.__init__ numpy2 1 1 (PyTuple [300; 0; 0]) =
    Ok (Image.new 1 1 [[(44, 0, 0, 255)]]).
Proof.
  split; [reflexivity |]. split; [reflexivity |].
  repeat split; vm_compute; reflexivity.
Qed.

(** C2 (violated by the code, see [Image.clear]): [clear] should normalise
    its argument like the other operations.  The code assigns the argument
    to the whole array as it is: an [rgba] object and [None] make NumPy raise
    [TypeError], a 3-tuple does not broadcast over the four channels and
    raises [ValueError]; [set_pixel] accepts all three.  In every one of
    these cases the buffer is left as it was. *)
Theorem clear_skips_validation np self c :
  Image.clear np (PyRgba c) self =
    (Raise (TypeError
       "int() argument must be a string, a bytes-like object or a real number, not 'rgba'"),
     self) /\
  Image.clear np PyNone self =
    (Raise (TypeError
       "int() argument must be a string, a bytes-like object or a real number, not 'NoneType'"),
     self) /\
  (exists msg,
     Image.clear np (PyTuple [255; 0; 0]) self = (Raise (ValueError msg), self)) /\
  fst (Image.set_pixel np 0 0 red small_image) = Ok tt /\
  fst (Image.set_pixel np 0 0 PyNone small_image) = Ok tt /\
  fst (Image.set_pixel np 0 0 (PyTuple [255; 0; 0]) small_image) = Ok tt.
Proof.
  split; [reflexivity |]. split; [reflexivity |].
  split; [eexists; reflexivity |].
  repeat split; reflexivity.
Qed.

Lemma get_pixel_edge self x y :
  shaped self = true ->
  0 <= x <= Image.width self -> 0 <= y <= Image.height self ->
  x = Image.width self \/ y = Image.height self ->
  exists axis size,
    Image.get_pixel self x y =
    Raise (IndexError ("index " +:+ repr size +:+ " is out of bounds for axis "
                       +:+ repr axis +:+ " with size " +:+ repr size)).
Proof.
  intros Hs Hx Hy Hedge.
  apply shaped_spec in Hs as (Hw & Hh & Hlen & Hrows).
  unfold Image.get_pixel. rewrite check_bounds_ok by lia. cbn [res_bind].
  unfold np_getitem, np_index.
  destruct (decide (y = Image.height self)) as [Hyh | Hyh].
  - exists 0, y.
    replace (y <? Z.of_nat (length (Image._rgba_data self))) with false
      by (symmetry; apply Z.ltb_ge; lia).
    rewrite andb_false_r. cbn [res_bind].
    replace (Z.of_nat (length (Image._rgba_data self))) with y by lia. reflexivity.
  - replace (- Z.of_nat (length (Image._rgba_data self)) <=? y) with true
      by (symmetry; apply Z.leb_le; lia).
    replace (y <? Z.of_nat (length (Image._rgba_data self))) with true
      by (symmetry; apply Z.ltb_lt; lia).
    replace (y <? 0) with false by (symmetry; apply Z.ltb_ge; lia).
    cbn [andb res_bind].
    destruct (lookup_lt_is_Some_2 (Image._rgba_data self) (Z.to_nat y))
      as [row Hrow]; [lia |].
    rewrite Hrow. pose proof (Hrows _ _ Hrow) as Hlr.
    exists 1, x.
    replace (x <? Z.of_nat (length row)) with false
      by (symmetry; apply Z.ltb_ge; lia).
    rewrite andb_false_r. cbn [res_bind].
    replace (Z.of_nat (length row)) with x by lia. reflexivity.
Qed.

(** C3: [_check_bounds] accepts [(x, y)] exactly when [0 <= x <= width] and
    [0 <= y <= height].  When it rejects, [get_pixel] and [set_pixel] raise
    the [IndexError] whose message names [x], the width, [y] and the height,
    and [set_pixel] writes nothing.  A coordinate on the inclusive upper
    bound passes the check and is one past the last index of the buffer: the
    array access then raises NumPy's own [IndexError]. *)
Theorem check_bounds_inclusive self x y :
  (Image._check_bounds self x y = Ok tt <->
   0 <= x <= Image.width self /\ 0 <= y <= Image.height self) /\
  (~ (0 <= x <= Image.width self /\ 0 <= y <= Image.height self) ->
   let e := IndexError
              ("X or Y values out of range x=" +:+ repr x
               +:+ " self.width=" +:+ repr (Image.width self)
               +:+ " y=" +:+ repr y
               +:+ " self.height=" +:+ repr (Image.height self)) in
   Image.get_pixel self x y = Raise e /\
   forall np value, Image.set_pixel np x y value self = (Raise e, self)) /\
  (shaped self = true ->
   0 <= x <= Image.width self -> 0 <= y <= Image.height self ->
   x = Image.width self \/ y = Image.height self ->
   exists axis size,
     Image.get_pixel self x y =
     Raise (IndexError ("index " +:+ repr size +:+ " is out of bounds for axis "
                        +:+ repr axis +:+ " with size " +:+ repr size))).
Proof.
  split; [| split].
  - split.
    + intros Hok.
      destruct (decide (0 <= x <= Image.width self /\ 0 <= y <= Image.height self))
        as [H | H]; [assumption |].
      rewrite check_bounds_fail in Hok by assumption. discriminate.
    + intros [Hx Hy]. by apply check_bounds_ok.
  - intros Hout e. split.
    + unfold Image.get_pixel. rewrite check_bounds_fail by assumption. reflexivity.
    + intros np value.
      unfold Image.set_pixel, Image.bind, Image.get_self, Image.lift.
      rewrite check_bounds_fail by assumption. reflexivity.
  - apply get_pixel_edge.
Qed.

Lemma check_bounds_inclusive_witness :
  ~ (0 <= 200 <= Image.width small_image /\ 0 <= 300 <= Image.height small_image) /\
  Image.get_pixel small_image 200 300 =
    Raise (IndexError
      "X or Y values out of range x=200 self.width=10 y=300 self.height=10") /\
  Image._check_bounds small_image 10 10 = Ok tt /\
  Image.get_pixel small_image 10 10 =
    Raise (IndexError "index 10 is out of bounds for axis 0 with size 10").
Proof.
  assert (Hout : ~ (0 <= 200 <= Image.width small_image /\
                    0 <= 300 <= Image.height small_image))
    by (vm_compute; intros [[_ H] _]; apply H; reflexivity).
  split; [exact Hout |].
  pose proof (check_bounds_inclusive small_image 200 300) as (_ & Hfail & _).
  destruct (Hfail Hout) as [Hget _].
  split; [exact Hget |].
  pose proof (check_bounds_inclusive small_image 10 10) as (Hiff & _ & _).
  split; [apply Hiff; vm_compute; repeat split; discriminate | reflexivity].
Defined.

(** A line whose coordinates are all inside the image runs to the end. *)
Lemma line_inside_run np self sx sy ex ey color c :
  shaped self = true ->
  Image._validate_rgba color = Ok c -> valid_pixel c = true ->
  forallb (inside self) (line_points sx sy ex ey) = true ->
  exists self',
    Image.line np sx sy ex ey color self = (Ok tt, self') /\
    painted (line_points sx sy ex ey) c self self'.
Proof.
  intros Hs Hval Hc Hall.
  rewrite (line_plot_all np sx sy ex ey color c self Hval).
  apply plot_all_inside; assumption.
Qed.

(** C4: when every rasterised coordinate lies inside the image, [line]
    returns normally; it plots [max(|x0-x1|, |y0-y1|) + 1] pairwise distinct
    coordinates, the first being [(x0, y0)] and the last [(x1, y1)], each an
    8-neighbour of the one before it and with one pixel per step of the
    longer axis; afterwards exactly these pixels hold the line color and
    every other pixel is as before. *)
Theorem line_inside_plots np self sx sy ex ey color c :
  shaped self = true ->
  Image._validate_rgba color = Ok c -> valid_pixel c = true ->
  forallb (inside self) (line_points sx sy ex ey) = true ->
  let pts := line_points sx sy ex ey in
  let dx := Z.abs (sx - ex) in
  let dy := Z.abs (sy - ey) in
  Image.line np sx sy ex ey color self = plot_all np pts c self /\
  fst (Image.line np sx sy ex ey color self) = Ok tt /\
  length pts = Z.to_nat (Z.max dx dy + 1) /\
  NoDup pts /\
  head pts = Some (sx, sy) /\
  last pts = Some (ex, ey) /\
  (forall i p q, pts !! i = Some p -> pts !! S i = Some q -> chebyshev p q = 1) /\
  (if dy <? dx then NoDup (pts.*1) else NoDup (pts.*2)) /\
  forall x y, inside self (x, y) = true ->
    Image.get_pixel (snd (Image.line np sx sy ex ey color self)) x y =
    if bool_decide ((x, y) ∈ pts) then Ok c else Image.get_pixel self x y.
Proof.
  intros Hs Hval Hc Hall pts dx dy.
  pose proof (line_plot_all np sx sy ex ey color c self Hval) as Hline.
  destruct (line_inside_run np self sx sy ex ey color c Hs Hval Hc Hall)
    as (self' & Hrun & Hpaint).
  split; [exact Hline |].
  rewrite Hrun. cbn [fst snd]. split; [reflexivity |].
  split; [apply line_points_length |].
  split; [apply line_points_NoDup |].
  split; [apply line_points_head |].
  split; [apply line_points_last |].
  split; [apply line_points_connected |].
  split; [apply line_points_major_NoDup |].
  intros x y Hin. eapply painted_get_pixel; eassumption.
Qed.

Lemma line_inside_plots_witness :
  shaped small_image = true /\
  forallb (inside small_image) (line_points 2 5 7 5) = true /\
  fst (Image.line numpy2 2 5 7 5 red small_image) = Ok tt /\
  line_points 2 5 7 5 = [(2, 5); (3, 5); (4, 5); (5, 5); (6, 5); (7, 5)] /\
  forall x y, inside small_image (x, y) = true ->
    Image.get_pixel (snd (Image.line numpy2 2 5 7 5 red small_image)) x y =
    if bool_decide ((x, y) ∈ line_points 2 5 7 5) then Ok (255, 0, 0, 255)
    else Image.get_pixel small_image x y.
Proof.
  split; [reflexivity |]. split; [reflexivity |].
  pose proof (line_inside_plots numpy2 small_image 2 5 7 5 red (255, 0, 0, 255)
                eq_refl eq_refl eq_refl eq_refl) as (_ & Hok & _ & _ & _ & _ & _ & _ & Hpix).
  split; [exact Hok |]. split; [reflexivity | exact Hpix].
Defined.

(** C5, as the specification states it, fails: on the 10 by 10 image the
    line from (0, 0) to (2, 1) sets the pixel (1, 0) and leaves (1, 1),
    the line from (2, 1) to (0, 0) sets (1, 1) and leaves (1, 0). *)
Lemma line_swap_differs :
  forallb (inside small_image) (line_points 0 0 2 1) = true /\
  forallb (inside small_image) (line_points 2 1 0 0) = true /\
  line_points 0 0 2 1 = [(0, 0); (1, 0); (2, 1)] /\
  line_points 2 1 0 0 = [(2, 1); (1, 1); (0, 0)] /\
  Image.get_pixel (snd (Image.line numpy2 0 0 2 1 red small_image)) 1 0
    = Ok (255, 0, 0, 255) /\
  Image.get_pixel (snd (Image.line numpy2 2 1 0 0 red small_image)) 1 0
    = Ok (255, 255, 255, 255).
Proof. repeat split; reflexivity. Qed.

(** C5, amended: for a line that lies inside the image both orders of the
    endpoints return normally and plot the same number of pixels; they plot
    the same set of pixels exactly when no step [k] along the longer axis
    falls halfway between two pixels of the shorter one, that is when
    [2 * k * min(dx, dy) mod (2 * max(dx, dy))] is never [max(dx, dy)].
    This covers every line whose longer extent is odd and every horizontal,
    vertical and exact-diagonal line.  Without such a step the two calls
    leave the same image. *)
Theorem line_swap_same_pixels np self sx sy ex ey color c :
  shaped self = true ->
  Image._validate_rgba color = Ok c -> valid_pixel c = true ->
  forallb (inside self) (line_points sx sy ex ey) = true ->
  let big := Z.max (Z.abs (sx - ex)) (Z.abs (sy - ey)) in
  let small := Z.min (Z.abs (sx - ex)) (Z.abs (sy - ey)) in
  fst (Image.line np sx sy ex ey color self) = Ok tt /\
  fst (Image.line np ex ey sx sy color self) = Ok tt /\
  length (line_points ex ey sx sy) = length (line_points sx sy ex ey) /\
  ((forall p, p ∈ line_points sx sy ex ey <-> p ∈ line_points ex ey sx sy) <->
   has_tie big small = false) /\
  (Z.odd big = true \/ small = 0 \/ small = big -> has_tie big small = false) /\
  (has_tie big small = false ->
   forall x y, inside self (x, y) = true ->
     Image.get_pixel (snd (Image.line np sx sy ex ey color self)) x y =
     Image.get_pixel (snd (Image.line np ex ey sx sy color self)) x y).
Proof.
  intros Hs Hval Hc Hall big small.
  assert (Hrev : forallb (inside self) (line_points ex ey sx sy) = true).
  { rewrite forallb_forall in Hall.
    apply line_points_inside; apply Hall, list_elem_of_In.
    - apply last_Some_elem_of, line_points_last.
    - apply head_Some_elem_of, line_points_head. }
  destruct (line_inside_run np self sx sy ex ey color c Hs Hval Hc Hall)
    as (fwd & -> & Hfwd).
  destruct (line_inside_run np self ex ey sx sy color c Hs Hval Hc Hrev)
    as (bwd & -> & Hbwd).
  cbn [fst snd].
  split; [reflexivity |]. split; [reflexivity |].
  split.
  { rewrite !line_points_length. f_equal. lia. }
  split; [apply line_points_swap_same |].
  split; [apply has_tie_false_simple |].
  intros Hno x y Hin.
  rewrite (painted_get_pixel _ c self fwd x y Hs Hfwd Hin).
  rewrite (painted_get_pixel _ c self bwd x y Hs Hbwd Hin).
  pose proof (proj2 (line_points_swap_same sx sy ex ey) Hno (x, y)) as Hsame.
  repeat case_bool_decide; try reflexivity; exfalso; tauto.
Qed.

Lemma line_swap_same_pixels_witness :
  shaped small_image = true /\
  forallb (inside small_image) (line_points 1 1 4 2) = true /\
  has_tie 3 1 = false /\
  forall x y, inside small_image (x, y) = true ->
    Image.get_pixel (snd (Image.line numpy2 1 1 4 2 red small_image)) x y =
    Image.get_pixel (snd (Image.line numpy2 4 2 1 1 red small_image)) x y.
Proof.
  split; [reflexivity |]. split; [reflexivity |]. split; [reflexivity |].
  pose proof (line_swap_same_pixels numpy2 small_image 1 1 4 2 red (255, 0, 0, 255)
                eq_refl eq_refl eq_refl eq_refl) as (_ & _ & _ & _ & _ & Hsame).
  exact (Hsame eq_refl).
Defined.

(** C6: when some rasterised coordinate lies outside the image, [line]
    raises the [IndexError] that names the first such coordinate, in
    iteration order, and no pixel other than those plotted before it is
    changed. *)
Theorem line_outside_fails np self sx sy ex ey color c :
  shaped self = true ->
  Image._validate_rgba color = Ok c -> valid_pixel c = true ->
  forallb (inside self) (line_points sx sy ex ey) = false ->
  exists pre p post,
    line_points sx sy ex ey = (pre ++ p :: post)%list /\
    forallb (inside self) pre = true /\
    inside self p = false /\
    fst (Image.line np sx sy ex ey color self) =
      Raise (IndexError ("Pixel (x=" +:+ repr p.1 +:+ ", y=" +:+ repr p.2
                         +:+ ") is out of bounds!")) /\
    forall x y, inside self (x, y) = true -> (x, y) ∉ pre ->
      Image.get_pixel (snd (Image.line np sx sy ex ey color self)) x y =
      Image.get_pixel self x y.
Proof.
  intros Hs Hval Hc Hsome.
  destruct (forallb_first_false _ _ Hsome) as (pre & p & post & Hsplit & Hpre & Hp).
  exists pre, p, post. split; [assumption |]. split; [assumption |].
  split; [assumption |].
  rewrite (line_plot_all np sx sy ex ey color c self Hval), Hsplit.
  destruct (plot_all_outside np pre p post c self Hs Hc Hpre Hp)
    as (self' & -> & Hpaint).
  cbn [fst snd]. split; [reflexivity |].
  intros x y Hin Hnot.
  rewrite (painted_get_pixel pre c self self' x y Hs Hpaint Hin).
  rewrite bool_decide_eq_false_2 by assumption. reflexivity.
Qed.

Lemma line_outside_fails_witness :
  shaped small_image = true /\
  forallb (inside small_image) (line_points 8 5 12 5) = false /\
  fst (Image.line numpy2 8 5 12 5 red small_image) =
    Raise (IndexError "Pixel (x=10, y=5) is out of bounds!").
Proof.
  split; [reflexivity |]. split; [reflexivity |].
  destruct (line_outside_fails numpy2 small_image 8 5 12 5 red (255, 0, 0, 255)
              eq_refl eq_refl eq_refl eq_refl) as (pre & p & post & _).
  reflexivity.
Defined.

(** C7: for corners in either order whose rectangle meets the image,
    [rectangle] returns normally and sets exactly the pixels of the sorted
    and clipped inclusive range [x_min <= x <= x_max], [y_min <= y <= y_max];
    every other pixel is as before. *)
Theorem rectangle_fills_clipped_range np self tx ty bx by_ color c :
  shaped self = true ->
  Image._validate_rgba color = Ok c -> valid_pixel c = true ->
  let x_min := Z.max 0 (Z.min tx bx) in
  let x_max := Z.min (Image.width self - 1) (Z.max tx bx) in
  let y_min := Z.max 0 (Z.min ty by_) in
  let y_max := Z.min (Image.height self - 1) (Z.max ty by_) in
  x_min <= x_max -> y_min <= y_max ->
  fst (Image.rectangle np tx ty bx by_ color self) = Ok tt /\
  forall x y, inside self (x, y) = true ->
    Image.get_pixel (snd (Image.rectangle np tx ty bx by_ color self)) x y =
    if (x_min <=? x) && (x <=? x_max) && ((y_min <=? y) && (y <=? y_max))
    then Ok c else Image.get_pixel self x y.
Proof.
  intros Hs Hval Hc x_min x_max y_min y_max Hx Hy.
  destruct (rectangle_filled np self tx ty bx by_ color c Hs Hval Hc Hx Hy)
    as (self' & -> & Hs' & Hw & Hh & Hpix).
  cbn [fst snd]. split; [reflexivity |].
  intros x y Hin. specialize (Hpix x y Hin). fold x_min x_max y_min y_max in Hpix.
  assert (Hin' : inside self' (x, y) = true).
  { apply inside_spec. apply inside_spec in Hin. lia. }
  destruct (get_pixel_inside _ _ _ Hs Hin) as (p & Hat & ->).
  destruct (get_pixel_inside _ _ _ Hs' Hin') as (p' & Hat' & ->).
  rewrite Hpix in Hat'.
  destruct ((x_min <=? x) && (x <=? x_max) && ((y_min <=? y) && (y <=? y_max)));
    congruence.
Qed.

Lemma rectangle_fills_clipped_range_witness :
  shaped small_image = true /\
  fst (Image.rectangle numpy2 2 3 5 6 red small_image) = Ok tt /\
  forall x y, inside small_image (x, y) = true ->
    Image.get_pixel (snd (Image.rectangle numpy2 2 3 5 6 red small_image)) x y =
    if (2 <=? x) && (x <=? 5) && ((3 <=? y) && (y <=? 6))
    then Ok (255, 0, 0, 255) else Image.get_pixel small_image x y.
Proof.
  split; [reflexivity |].
  apply (rectangle_fills_clipped_range numpy2 small_image 2 3 5 6 red (255, 0, 0, 255)
           eq_refl eq_refl eq_refl); vm_compute; discriminate.
Defined.

(** C8: when the clipped range is empty, [rectangle] returns normally and
    the image is left as it was; and whatever the corners are, [rectangle]
    with a valid color returns normally. *)
Theorem rectangle_outside_noop np self tx ty bx by_ color c :
  Image._validate_rgba color = Ok c ->
  (Z.min (Image.width self - 1) (Z.max tx bx) < Z.max 0 (Z.min tx bx) \/
   Z.min (Image.height self - 1) (Z.max ty by_) < Z.max 0 (Z.min ty by_) ->
   Image.rectangle np tx ty bx by_ color self = (Ok tt, self)) /\
  (shaped self = true -> valid_pixel c = true ->
   fst (Image.rectangle np tx ty bx by_ color self) = Ok tt).
Proof.
  intros Hval. split.
  - apply (rectangle_outside np self tx ty bx by_ color c Hval).
  - intros Hs Hc.
    destruct (Z.lt_ge_cases (Z.min (Image.width self - 1) (Z.max tx bx))
                            (Z.max 0 (Z.min tx bx))) as [Hx | Hx].
    { rewrite (rectangle_outside np self tx ty bx by_ color c Hval); auto. }
    destruct (Z.lt_ge_cases (Z.min (Image.height self - 1) (Z.max ty by_))
                            (Z.max 0 (Z.min ty by_))) as [Hy | Hy].
    { rewrite (rectangle_outside np self tx ty bx by_ color c Hval); auto. }
    destruct (rectangle_filled np self tx ty bx by_ color c Hs Hval Hc Hx Hy)
      as (self' & -> & _).
    reflexivity.
Qed.

Lemma rectangle_outside_noop_witness :
  Image._validate_rgba red = Ok (255, 0, 0, 255) /\
  Image.rectangle numpy2 20 20 30 30 red small_image = (Ok tt, small_image).
Proof.
  split; [reflexivity |].
  apply (rectangle_outside_noop numpy2 small_image 20 20 30 30 red (255, 0, 0, 255)
           eq_refl).
  left. vm_compute. reflexivity.
Defined.

(** C9: on a freshly constructed image every pixel of the buffer reads as
    the normalised fill color; without a fill color, or with [None], it
    reads as opaque white. *)
Theorem init_fills_every_pixel np width height fill_color c x y :
  Image._validate_rgba fill_color = Ok c -> valid_pixel c = true ->
  0 <= x < width -> 0 <= y < height ->
  (exists self,
     Image.__init__ np width height fill_color = Ok self /\
     Image.width self = width /\ Image.height self = height /\
     Image.get_pixel self x y = Ok c) /\
  (exists self,
     Image.__init__ np width height PyNone = Ok self /\
     Image.get_pixel self x y = Ok (255, 255, 255, 255)).
Proof.
  intros Hval Hc Hx Hy.
  assert (Hgen : forall fill p,
    Image._validate_rgba fill = Ok p -> valid_pixel p = true ->
    exists self, Image.__init__ np width height fill = Ok self /\
                 Image.width self = width /\ Image.height self = height /\
                 Image.get_pixel self x y = Ok p).
  { intros fill p Hv Hp.
    destruct (init_shaped np width height fill p ltac:(lia) ltac:(lia) Hv Hp)
      as (self & Hinit & Hs & Hw & Hh & Hpix).
    exists self. split; [assumption |]. split; [assumption |]. split; [assumption |].
    assert (Hin : inside self (x, y) = true) by (apply inside_spec; lia).
    destruct (get_pixel_inside _ _ _ Hs Hin) as (q & Hat & ->).
    rewrite (Hpix _ _ Hin) in Hat. congruence. }
  split.
  - apply Hgen; assumption.
  - destruct (Hgen PyNone (255, 255, 255, 255) eq_refl eq_refl)
      as (self & Hinit & _ & _ & Hget).
    eauto.
Qed.

Lemma init_fills_every_pixel_witness :
  Image._validate_rgba red = Ok (255, 0, 0, 255) /\
  exists self,
    Image.__init__ numpy2 10 10 red = Ok self /\
    Image.width self = 10 /\ Image.height self = 10 /\
    Image.get_pixel self 9 9 = Ok (255, 0, 0, 255).
Proof.
  split; [reflexivity |].
  apply (init_fills_every_pixel numpy2 10 10 red (255, 0, 0, 255) 9 9
           eq_refl eq_refl); lia.
Defined.

(** C10: when [line] fails at a coordinate outside the image, the pixels
    it plotted before that coordinate keep the line color: the call is not
    atomic, and the image differs from the one before the call as soon as
    one of those pixels had another color. *)
Theorem line_failure_keeps_partial_writes np self sx sy ex ey color c pre p post :
  shaped self = true ->
  Image._validate_rgba color = Ok c -> valid_pixel c = true ->
  line_points sx sy ex ey = (pre ++ p :: post)%list ->
  forallb (inside self) pre = true -> inside self p = false ->
  (exists msg, fst (Image.line np sx sy ex ey color self) = Raise (IndexError msg)) /\
  (forall x y, (x, y) ∈ pre ->
     Image.get_pixel (snd (Image.line np sx sy ex ey color self)) x y = Ok c) /\
  ((exists x y, (x, y) ∈ pre /\ Image.get_pixel self x y <> Ok c) ->
   snd (Image.line np sx sy ex ey color self) <> self).
Proof.
  intros Hs Hval Hc Hsplit Hpre Hp.
  rewrite (line_plot_all np sx sy ex ey color c self Hval), Hsplit.
  destruct (plot_all_outside np pre p post c self Hs Hc Hpre Hp)
    as (self' & -> & Hpaint).
  cbn [fst snd].
  assert (Hwritten : forall x y, (x, y) ∈ pre -> Image.get_pixel self' x y = Ok c).
  { intros x y Hin.
    assert (Hinside : inside self (x, y) = true).
    { rewrite forallb_forall in Hpre. apply Hpre, list_elem_of_In. assumption. }
    rewrite (painted_get_pixel pre c self self' x y Hs Hpaint Hinside).
    rewrite bool_decide_eq_true_2 by assumption. reflexivity. }
  split; [eauto |]. split; [assumption |].
  intros (x & y & Hin & Hne) Heq. apply Hne. rewrite <- Heq. auto.
Qed.

Lemma line_failure_keeps_partial_writes_witness :
  line_points 8 5 12 5 = ([(8, 5); (9, 5)] ++ (10, 5) :: [(11, 5); (12, 5)])%list /\
  inside small_image (10, 5) = false /\
  Image.get_pixel small_image 9 5 = Ok (255, 255, 255, 255) /\
  Image.get_pixel (snd (Image.line numpy2 8 5 12 5 red small_image)) 9 5 =
    Ok (255, 0, 0, 255).
Proof.
  split; [reflexivity |]. split; [reflexivity |]. split; [reflexivity |].
  destruct (line_failure_keeps_partial_writes numpy2 small_image 8 5 12 5 red
              (255, 0, 0, 255) [(8, 5); (9, 5)] (10, 5) [(11, 5); (12, 5)]
              eq_refl eq_refl eq_refl eq_refl eq_refl eq_refl) as (_ & Hkept & _).
  apply Hkept. apply list_elem_of_further, list_elem_of_here.
Defined.

(** * Further properties of the class *)

(** ** Images of one shape with the same pixels are equal *)

Lemma image_ext self self' :
  shaped self = true -> shaped self' = true ->
  Image.width self' = Image.width self -> Image.height self' = Image.height self ->
  (forall x y, inside self (x, y) = true ->
     pixel_at (Image._rgba_data self') x y = pixel_at (Image._rgba_data self) x y) ->
  self' = self.
Proof.
  intros Hs Hs' Hw Hh Hpix.
  apply shaped_spec in Hs as (Hw0 & Hh0 & Hlen & Hrows).
  apply shaped_spec in Hs' as (Hw0' & Hh0' & Hlen' & Hrows').
  destruct self as [w h data], self' as [w' h' data'].
  unfold Image.width, Image.height in *. simpl in *. subst w' h'.
  f_equal. apply list_eq. intros i.
  destruct (decide (i < Z.to_nat h)%nat) as [Hi | Hi].
  - destruct (lookup_lt_is_Some_2 data i) as [row Hrow]; [lia |].
    destruct (lookup_lt_is_Some_2 data' i) as [row' Hrow']; [lia |].
    rewrite Hrow, Hrow'. f_equal. apply list_eq. intros j.
    pose proof (Hrows _ _ Hrow) as Hlr. pose proof (Hrows' _ _ Hrow') as Hlr'.
    destruct (decide (j < Z.to_nat w)%nat) as [Hj | Hj].
    + specialize (Hpix (Z.of_nat j) (Z.of_nat i)).
      unfold pixel_at in Hpix. rewrite !Nat2Z.id, Hrow, Hrow' in Hpix.
      apply Hpix. apply inside_spec. unfold Image.width, Image.height. simpl. lia.
    + rewrite !lookup_ge_None_2 by lia. reflexivity.
  - rewrite !lookup_ge_None_2 by lia. reflexivity.
Qed.

Lemma get_pixel_pixel_at self x y :
  shaped self = true -> inside self (x, y) = true ->
  Image.get_pixel self x y =
  match pixel_at (Image._rgba_data self) x y with
  | Some p => Ok p
  | None => Raise (IndexError "unreachable")
  end.
Proof.
  intros Hs Hin. destruct (get_pixel_inside _ _ _ Hs Hin) as (p & -> & ->).
  reflexivity.
Qed.

Lemma get_pixel_outside self x y :
  shaped self = true -> inside self (x, y) = false ->
  exists msg, Image.get_pixel self x y = Raise (IndexError msg).
Proof.
  intros Hs Hout.
  destruct (decide (0 <= x <= Image.width self /\ 0 <= y <= Image.height self))
    as [[Hx Hy] | Hb].
  - apply inside_false_spec in Hout.
    destruct (get_pixel_edge self x y Hs Hx Hy ltac:(lia)) as (axis & size & ->).
    eauto.
  - unfold Image.get_pixel. rewrite check_bounds_fail by assumption. simpl. eauto.
Qed.

(** X1: after a successful [set_pixel] the pixel reads back as the written
    color and every other pixel reads as before. *)
Theorem set_pixel_get_pixel np self x y color c :
  shaped self = true -> inside self (x, y) = true ->
  Image._validate_rgba color = Ok c -> valid_pixel c = true ->
  fst (Image.set_pixel np x y color self) = Ok tt /\
  forall x' y', inside self (x', y') = true ->
    Image.get_pixel (snd (Image.set_pixel np x y color self)) x' y' =
    if (x' =? x) && (y' =? y) then Ok c else Image.get_pixel self x' y'.
Proof.
  intros Hs Hin Hval Hc.
  destruct (set_pixel_inside np self x y color c Hs Hin Hval Hc)
    as (self' & -> & Hs' & Hw & Hh & Hpix).
  cbn [fst snd]. split; [reflexivity |].
  intros x' y' Hin'.
  assert (Hin2 : inside self' (x', y') = true).
  { apply inside_spec. apply inside_spec in Hin'. lia. }
  rewrite (get_pixel_pixel_at self' x' y' Hs' Hin2).
  rewrite (get_pixel_pixel_at self x' y' Hs Hin').
  apply inside_spec in Hin'. rewrite Hpix by lia.
  destruct ((x' =? x) && (y' =? y)); reflexivity.
Qed.

Lemma set_pixel_get_pixel_witness :
  shaped small_image = true /\ inside small_image (2, 0) = true /\
  Image.get_pixel (snd (Image.set_pixel numpy2 2 0 (PyTuple [0; 0; 255; 205])
                          small_image)) 2 0 = Ok (0, 0, 255, 205).
Proof.
  split; [reflexivity |]. split; [reflexivity |].
  destruct (set_pixel_get_pixel numpy2 small_image 2 0 (PyTuple [0; 0; 255; 205])
              (0, 0, 255, 205) eq_refl eq_refl eq_refl eq_refl) as [_ Hread].
  apply (Hread 2 0 eq_refl).
Defined.

(** X2: on an image of the constructor's shape [get_pixel] returns a pixel
    exactly for [0 <= x < width] and [0 <= y < height], and so does
    [set_pixel] with a valid color; everywhere else both raise [IndexError]:
    the inclusive check never lets a read or a write leave the buffer, and a
    negative coordinate never counts from the end of the array. *)
Theorem pixel_access_domain np self x y color c :
  shaped self = true ->
  Image._validate_rgba color = Ok c -> valid_pixel c = true ->
  ((exists p, Image.get_pixel self x y = Ok p) <-> inside self (x, y) = true) /\
  (fst (Image.set_pixel np x y color self) = Ok tt <-> inside self (x, y) = true) /\
  (inside self (x, y) = false ->
   (exists msg, Image.get_pixel self x y = Raise (IndexError msg)) /\
   (exists msg, Image.set_pixel np x y color self = (Raise (IndexError msg), self))).
Proof.
  intros Hs Hval Hc.
  assert (Hout : inside self (x, y) = false ->
    (exists msg, Image.get_pixel self x y = Raise (IndexError msg)) /\
    (exists msg, Image.set_pixel np x y color self = (Raise (IndexError msg), self))).
  { intros Hout. split.
    - by apply get_pixel_outside.
    - by apply (set_pixel_outside np self x y color c). }
  split; [| split; [| exact Hout]].
  - split.
    + intros [p Hp]. destruct (inside self (x, y)) eqn:E; [reflexivity |].
      destruct (Hout eq_refl) as [[msg Hmsg] _]. congruence.
    + intros Hin. destruct (get_pixel_inside _ _ _ Hs Hin) as (p & _ & Hp). eauto.
  - split.
    + intros Hok. destruct (inside self (x, y)) eqn:E; [reflexivity |].
      destruct (Hout eq_refl) as [_ [msg Hmsg]]. rewrite Hmsg in Hok. discriminate.
    + intros Hin.
      destruct (set_pixel_inside np self x y color c Hs Hin Hval Hc) as (s' & -> & _).
      reflexivity.
Qed.

Lemma pixel_access_domain_witness :
  shaped small_image = true /\ inside small_image (-1, 3) = false /\
  exists msg, Image.get_pixel small_image (-1) 3 = Raise (IndexError msg).
Proof.
  split; [reflexivity |]. split; [reflexivity |].
  destruct (pixel_access_domain numpy2 small_image (-1) 3 red (255, 0, 0, 255)
              eq_refl eq_refl eq_refl) as (_ & _ & Hout).
  exact (proj1 (Hout eq_refl)).
Defined.

(** ** Failures and color shapes *)


Lemma validate_rgba_wrong_length items :
  length items <> 3%nat -> length items <> 4%nat ->
  Image._validate_rgba (PyTuple items) =
  Raise (TypeError "Invalid type of RGBA color: tuple").
Proof.
  intros H3 H4.
  destruct items as [| r [| g [| b [| a [| z rest]]]]]; simpl in *;
    reflexivity || lia.
Qed.

(** X4: a tuple of any length other than 3 or 4 is refused with
    [TypeError] by the constructor, by [line] and by [rectangle] before
    anything else happens (a [line] out of bounds or a [rectangle] off the
    image included), and by [set_pixel] once the coordinate has passed the
    bounds check; the image is untouched. *)
Theorem wrong_length_tuple_refused np items :
  length items <> 3%nat -> length items <> 4%nat ->
  let e := TypeError "Invalid type of RGBA color: tuple" in
  (forall width height, Image.__init__ np width height (PyTuple items) = Raise e) /\
  (forall self x y,
     0 <= x <= Image.width self -> 0 <= y <= Image.height self ->
     Image.set_pixel np x y (PyTuple items) self = (Raise e, self)) /\
  (forall self sx sy ex ey,
     Image.line np sx sy ex ey (PyTuple items) self = (Raise e, self)) /\
  (forall self tx ty bx by_,
     Image.rectangle np tx ty bx by_ (PyTuple items) self = (Raise e, self)).
Proof.
  intros H3 H4 e.
  pose proof (validate_rgba_wrong_length items H3 H4) as Hval.
  split; [| split; [| split]].
  - intros width height. unfold Image.__init__. rewrite Hval. reflexivity.
  - intros self x y Hx Hy.
    unfold Image.set_pixel, Image.bind, Image.get_self, Image.lift.
    rewrite check_bounds_ok by assumption. rewrite Hval. reflexivity.
  - intros self sx sy ex ey. unfold Image.line, Image.bind, Image.lift.
    rewrite Hval. reflexivity.
  - intros self tx ty bx by_. unfold Image.rectangle, Image.bind, Image.lift.
    rewrite Hval. reflexivity.
Qed.

Lemma wrong_length_tuple_refused_witness :
  length [255; 0] <> 3%nat /\ length [255; 0] <> 4%nat /\
  Image.rectangle numpy2 20 20 30 30 (PyTuple [255; 0]) small_image =
    (Raise (TypeError "Invalid type of RGBA color: tuple"), small_image).
Proof.
  split; [simpl; lia |]. split; [simpl; lia |].
  destruct (wrong_length_tuple_refused numpy2 [255; 0] ltac:(simpl; lia)
              ltac:(simpl; lia)) as (_ & _ & _ & Hrect).
  apply Hrect.
Defined.

(** X5: [rgba(r, g, b, a)] is constructed exactly when the four channels
    are in [0, 255]; otherwise the [ValueError] names the first channel out
    of range in the order r, g, b, a.  A constructed color turns into the
    tuple [(r, g, b, a)] under [as_tuple] and under [_validate_rgba]. *)
Theorem rgba_init_checks_channels r g b a :
  rgba.__init__ r g b a =
    (if negb (in_uint8 r)
     then Raise (ValueError "RGBA component r must be an int from 0 to 255")
     else if negb (in_uint8 g)
     then Raise (ValueError "RGBA component g must be an int from 0 to 255")
     else if negb (in_uint8 b)
     then Raise (ValueError "RGBA component b must be an int from 0 to 255")
     else if negb (in_uint8 a)
     then Raise (ValueError "RGBA component a must be an int from 0 to 255")
     else Ok (rgba.new r g b a)) /\
  ((exists c, rgba.__init__ r g b a = Ok c) <-> valid_pixel (r, g, b, a) = true) /\
  (forall c, rgba.__init__ r g b a = Ok c ->
     rgba.as_tuple c = (r, g, b, a) /\
     Image._validate_rgba (PyRgba c) = Ok (r, g, b, a)).
Proof.
  assert (Hchain : rgba.__init__ r g b a =
    (if negb (in_uint8 r)
     then Raise (ValueError "RGBA component r must be an int from 0 to 255")
     else if negb (in_uint8 g)
     then Raise (ValueError "RGBA component g must be an int from 0 to 255")
     else if negb (in_uint8 b)
     then Raise (ValueError "RGBA component b must be an int from 0 to 255")
     else if negb (in_uint8 a)
     then Raise (ValueError "RGBA component a must be an int from 0 to 255")
     else Ok (rgba.new r g b a))).
  { unfold rgba.__init__, rgba.__post_init__, in_uint8.
    cbn [rgba.check_components rgba.getattr String.eqb Ascii.eqb Bool.eqb
         rgba.r rgba.g rgba.b rgba.a].
    destruct ((0 <=? r) && (r <=? 255)); cbn [negb res_bind]; [| reflexivity].
    destruct ((0 <=? g) && (g <=? 255)); cbn [negb res_bind]; [| reflexivity].
    destruct ((0 <=? b) && (b <=? 255)); cbn [negb res_bind]; [| reflexivity].
    destruct ((0 <=? a) && (a <=? 255)); cbn [negb res_bind]; reflexivity. }
  split; [exact Hchain |]. split.
  - rewrite <- rgba_init_valid. split.
    + intros [c Hc]. rewrite Hchain in *.
      destruct (negb (in_uint8 r)); [discriminate |].
      destruct (negb (in_uint8 g)); [discriminate |].
      destruct (negb (in_uint8 b)); [discriminate |].
      destruct (negb (in_uint8 a)); [discriminate | reflexivity].
    + eauto.
  - intros c Hc. rewrite Hchain in Hc.
    destruct (negb (in_uint8 r)); [discriminate |].
    destruct (negb (in_uint8 g)); [discriminate |].
    destruct (negb (in_uint8 b)); [discriminate |].
    destruct (negb (in_uint8 a)); [discriminate |].
    injection Hc as <-. split; reflexivity.
Qed.

(** X6: the drawing operations see a color argument only through
    [_validate_rgba]: two arguments with the same normal form, such as
    [rgba(255, 0, 0)], [(255, 0, 0)] and [(255, 0, 0, 255)], or [None] and
    opaque white, give the same result in the constructor, [set_pixel],
    [line] and [rectangle], errors included. *)
Theorem same_normal_form_same_result np c1 c2 :
  Image._validate_rgba c1 = Image._validate_rgba c2 ->
  (forall width height,
     Image.__init__ np width height c1 = Image.__init__ np width height c2) /\
  (forall x y self,
     Image.set_pixel np x y c1 self = Image.set_pixel np x y c2 self) /\
  (forall sx sy ex ey self,
     Image.line np sx sy ex ey c1 self = Image.line np sx sy ex ey c2 self) /\
  (forall tx ty bx by_ self,
     Image.rectangle np tx ty bx by_ c1 self =
     Image.rectangle np tx ty bx by_ c2 self).
Proof.
  intros H. split; [| split; [| split]].
  - intros width height. unfold Image.__init__. rewrite H. reflexivity.
  - intros x y self.
    unfold Image.set_pixel, Image.bind, Image.get_self, Image.lift.
    rewrite H. reflexivity.
  - intros sx sy ex ey self. unfold Image.line, Image.bind, Image.lift.
    rewrite H. reflexivity.
  - intros tx ty bx by_ self. unfold Image.rectangle, Image.bind, Image.lift.
    rewrite H. reflexivity.
Qed.

Lemma same_normal_form_same_result_witness :
  Image._validate_rgba red = Image._validate_rgba (PyTuple [255; 0; 0]) /\
  Image._validate_rgba PyNone = Image._validate_rgba (PyTuple [255; 255; 255; 255]) /\
  forall sx sy ex ey self,
    Image.line numpy2 sx sy ex ey red self =
    Image.line numpy2 sx sy ex ey (PyTuple [255; 0; 0]) self.
Proof.
  split; [reflexivity |]. split; [reflexivity |].
  destruct (same_normal_form_same_result numpy2 red (PyTuple [255; 0; 0]) eq_refl)
    as (_ & _ & Hline & _).
  exact Hline.
Defined.


Lemma rgba_init_checks_channels_witness :
  rgba.__init__ 255 0 128 56 = Ok (rgba.new 255 0 128 56) /\
  rgba.as_tuple (rgba.new 255 0 128 56) = (255, 0, 128, 56) /\
  Image._validate_rgba (PyRgba (rgba.new 255 0 128 56)) = Ok (255, 0, 128, 56).
Proof.
  split; [reflexivity |].
  destruct (rgba_init_checks_channels 255 0 128 56) as (_ & _ & Hok).
  apply (Hok _ eq_refl).
Defined.

(** ** The shape of the buffer *)

Lemma shaped_same_lengths self data :
  shaped self = true ->
  length <$> data = length <$> Image._rgba_data self ->
  shaped (Image.new (Image._width self) (Image._height self) data) = true.
Proof.
  intros Hs Hlens. apply shaped_spec in Hs as (Hw & Hh & Hlen & Hrows).
  apply shaped_spec. unfold Image.width, Image.height in *. simpl.
  split; [assumption | split; [assumption | split]].
  - rewrite <- Hlen, <- (length_fmap length data), Hlens. apply length_fmap.
  - intros i row Hi.
    assert (Hl : (length <$> Image._rgba_data self) !! i = Some (length row)).
    { rewrite <- Hlens, list_lookup_fmap, Hi. reflexivity. }
    rewrite list_lookup_fmap in Hl.
    destruct (Image._rgba_data self !! i) as [row0 |] eqn:E; [| discriminate].
    simpl in Hl. injection Hl as <-. eauto.
Qed.

Lemma np_setitem_lengths np data y x c data' :
  np_setitem np data y x c = Ok data' -> length <$> data' = length <$> data.
Proof.
  unfold np_setitem. intros H.
  destruct (np_index 0 y (length data)) as [iy | e]; [| discriminate].
  cbn [res_bind] in H.
  destruct (data !! iy) as [row |] eqn:Erow; [| discriminate].
  destruct (np_index 1 x (length row)) as [ix | e]; [| discriminate].
  cbn [res_bind] in H.
  destruct (cast_pixel (setitem_uint8 np) c) as [v | e]; [| discriminate].
  cbn [res_bind] in H. injection H as <-.
  rewrite list_fmap_insert, length_insert.
  apply list_insert_id. rewrite list_lookup_fmap, Erow. reflexivity.
Qed.

Lemma np_setslice_lengths np data y1 y2 x1 x2 c data' :
  np_setslice np data y1 y2 x1 x2 c = Ok data' ->
  length <$> data' = length <$> data.
Proof.
  unfold np_setslice. intros H.
  destruct (cast_pixel (setitem_uint8 np) c) as [v | e]; [| discriminate].
  cbn [res_bind] in H. injection H as <-.
  apply list_eq. intros i. rewrite !list_lookup_fmap, list_lookup_imap.
  destruct (data !! i) as [row |]; [| reflexivity]. simpl.
  destruct (in_slice y1 y2 (length data) i); [| reflexivity].
  rewrite length_imap. reflexivity.
Qed.

Lemma fill_all_lengths v data : length <$> fill_all v data = length <$> data.
Proof.
  unfold fill_all. apply list_eq. intros i. rewrite !list_lookup_fmap.
  destruct (data !! i) as [row |]; [| reflexivity]. simpl.
  rewrite length_fmap. reflexivity.
Qed.

Lemma np_setall_lengths np height width data color data' :
  np_setall np height width data color = Ok data' ->
  length <$> data' = length <$> data.
Proof.
  unfold np_setall. intros H. destruct color as [| c | items]; try discriminate.
  destruct (cast_items (setitem_uint8 np) items) as [items' | e]; [| discriminate].
  cbn [res_bind] in H.
  destruct items' as [| r [| g [| b [| a [| z rest]]]]]; try discriminate;
    injection H as <-; apply fill_all_lengths.
Qed.

Lemma set_pixel_keeps_shape np x y value self :
  shaped self = true ->
  shaped (snd (Image.set_pixel np x y value self)) = true /\
  Image.width (snd (Image.set_pixel np x y value self)) = Image.width self /\
  Image.height (snd (Image.set_pixel np x y value self)) = Image.height self.
Proof.
  intros Hs.
  unfold Image.set_pixel, Image.bind, Image.get_self, Image.lift,
    Image.set_rgba_data.
  destruct (Image._check_bounds self x y) as [[] | e1]; [| auto].
  destruct (Image._validate_rgba value) as [c | e2]; [| auto].
  destruct (np_setitem np (Image._rgba_data self) y x c) as [d | e3] eqn:E; [| auto].
  cbn [fst snd]. split; [| split; reflexivity].
  apply shaped_same_lengths; [assumption |]. eapply np_setitem_lengths; eassumption.
Qed.

Lemma plot_all_keeps_shape np pts c self :
  shaped self = true ->
  shaped (snd (plot_all np pts c self)) = true /\
  Image.width (snd (plot_all np pts c self)) = Image.width self /\
  Image.height (snd (plot_all np pts c self)) = Image.height self.
Proof.
  revert self. induction pts as [| [x y] pts IH]; intros self Hs; [auto |].
  simpl. unfold Image.bind.
  destruct c as [[[r g] b] a].
  pose proof (set_pixel_keeps_shape np x y (PyTuple [r; g; b; a]) self Hs)
    as (Hs1 & Hw1 & Hh1).
  unfold Image.plot, Image.except_IndexError, Image.raise.
  destruct (Image.set_pixel np x y (PyTuple [r; g; b; a]) self) as [[[] | e] self1];
    cbn [fst snd] in *.
  - destruct (IH self1 Hs1) as (Hs' & Hw' & Hh').
    split; [assumption | split; congruence].
  - destruct e; cbn [fst snd]; auto.
Qed.

Lemma line_keeps_shape np sx sy ex ey color self :
  shaped self = true ->
  shaped (snd (Image.line np sx sy ex ey color self)) = true /\
  Image.width (snd (Image.line np sx sy ex ey color self)) = Image.width self /\
  Image.height (snd (Image.line np sx sy ex ey color self)) = Image.height self.
Proof.
  intros Hs. destruct (Image._validate_rgba color) as [c | e] eqn:Hval.
  - rewrite (line_plot_all np sx sy ex ey color c self Hval).
    by apply plot_all_keeps_shape.
  - unfold Image.line, Image.bind, Image.lift. rewrite Hval. auto.
Qed.

Lemma clear_keeps_shape np color self :
  shaped self = true ->
  shaped (snd (Image.clear np color self)) = true /\
  Image.width (snd (Image.clear np color self)) = Image.width self /\
  Image.height (snd (Image.clear np color self)) = Image.height self.
Proof.
  intros Hs.
  unfold Image.clear, Image.bind, Image.get_self, Image.lift, Image.set_rgba_data.
  destruct (np_setall np _ _ (Image._rgba_data self) color) as [d | e] eqn:E; [| auto].
  cbn [fst snd]. split; [| split; reflexivity].
  apply shaped_same_lengths; [assumption |]. eapply np_setall_lengths; eassumption.
Qed.

Lemma rectangle_keeps_shape np tx ty bx by_ color self :
  shaped self = true ->
  shaped (snd (Image.rectangle np tx ty bx by_ color self)) = true /\
  Image.width (snd (Image.rectangle np tx ty bx by_ color self)) = Image.width self /\
  Image.height (snd (Image.rectangle np tx ty bx by_ color self)) = Image.height self.
Proof.
  intros Hs.
  unfold Image.rectangle, Image.bind, Image.get_self, Image.lift,
    Image.set_rgba_data, Image.ret.
  destruct (Image._validate_rgba color) as [c | e1]; [| auto].
  rewrite !sorted2_min_max.
  destruct ((_ <? _) || (_ <? _)); [auto |].
  destruct (np_setslice np (Image._rgba_data self) _ _ _ _ c) as [d | e2] eqn:E;
    [| auto].
  cbn [fst snd]. split; [| split; reflexivity].
  apply shaped_same_lengths; [assumption |]. eapply np_setslice_lengths; eassumption.
Qed.

Lemma init_keeps_shape np width height fill_color self :
  Image.__init__ np width height fill_color = Ok self ->
  shaped self = true /\ Image.width self = width /\ Image.height self = height.
Proof.
  unfold Image.__init__, np_full. intros H.
  destruct (Image._validate_rgba fill_color) as [c | e]; [| discriminate].
  cbn [res_bind] in H.
  destruct (Z.ltb_spec height 0); [discriminate |].
  destruct (Z.ltb_spec width 0); [discriminate |].
  cbn [orb] in H.
  assert (Hrep : forall row : list pixel, length row = Z.to_nat width ->
    shaped (Image.new width height (replicate (Z.to_nat height) row)) = true).
  { intros row Hrow. apply shaped_spec. cbn.
    split; [assumption | split; [assumption | split]].
    - apply length_replicate.
    - intros i r Hi. apply lookup_replicate in Hi as [-> _]. assumption. }
  destruct ((height =? 0) || (width =? 0)) eqn:Ezero.
  - injection H as <-. split; [| split; reflexivity].
    apply orb_true_iff in Ezero. rewrite !Z.eqb_eq in Ezero.
    destruct Ezero as [-> | ->].
    + exact (Hrep (replicate (Z.to_nat width) (0, 0, 0, 0)) (length_replicate _ _)).
    + apply Hrep. reflexivity.
  - destruct (cast_pixel (copyto_uint8 np) c) as [v | e]; [| discriminate].
    cbn [res_bind] in H. injection H as <-. split; [| split; reflexivity].
    apply Hrep. apply length_replicate.
Qed.

Lemma shaped_pixel_count self :
  shaped self = true ->
  Z.of_nat (length (concat (Image._rgba_data self))) =
  Image.width self * Image.height self.
Proof.
  intros Hs. apply shaped_spec in Hs as (Hw & Hh & Hlen & Hrows).
  assert (Hgen : forall data : list (list pixel),
    (forall i row, data !! i = Some row -> length row = Z.to_nat (Image.width self)) ->
    Z.of_nat (length (concat data)) = Image.width self * Z.of_nat (length data)).
  { induction data as [| row data IH]; intros Hall; [simpl; lia |].
    simpl. rewrite length_app, Nat2Z.inj_add.
    rewrite (Hall 0%nat row eq_refl).
    rewrite IH by (intros i r Hi; apply (Hall (S i) r Hi)). lia. }
  rewrite (Hgen _ Hrows), Hlen. lia.
Qed.

(** X7: the constructor and every mutating method, returning or raising,
    keep the buffer in the constructor's shape: [width] and [height] never
    change, the buffer has [height] rows of [width] pixels each, hence
    [width * height] pixels in all. *)
Theorem reachable_shape np width height self :
  reachable np width height self ->
  Image.width self = width /\ Image.height self = height /\
  shaped self = true /\
  Z.of_nat (length (concat (Image._rgba_data self))) = width * height.
Proof.
  intros Hreach.
  assert (H : shaped self = true /\ Image.width self = width /\
              Image.height self = height).
  { induction Hreach as [fill self Hinit
                        | self x y value _ IH
                        | self color _ IH
                        | self sx sy ex ey color _ IH
                        | self tx ty bx by_ color _ IH].
    - eapply init_keeps_shape; eassumption.
    - destruct IH as (Hs & Hw & Hh).
      destruct (set_pixel_keeps_shape np x y value self Hs) as (? & ? & ?).
      split; [assumption | split; congruence].
    - destruct IH as (Hs & Hw & Hh).
      destruct (clear_keeps_shape np color self Hs) as (? & ? & ?).
      split; [assumption | split; congruence].
    - destruct IH as (Hs & Hw & Hh).
      destruct (line_keeps_shape np sx sy ex ey color self Hs) as (? & ? & ?).
      split; [assumption | split; congruence].
    - destruct IH as (Hs & Hw & Hh).
      destruct (rectangle_keeps_shape np tx ty bx by_ color self Hs) as (? & ? & ?).
      split; [assumption | split; congruence]. }
  destruct H as (Hs & Hw & Hh).
  split; [assumption | split; [assumption | split; [assumption |]]].
  rewrite (shaped_pixel_count self Hs). congruence.
Qed.

Lemma reachable_shape_witness :
  reachable numpy2 10 10
    (snd (Image.line numpy2 8 5 12 5 red
            (snd (Image.clear numpy2 (PyTuple [0; 0; 0]) small_image)))) /\
  Image.width (snd (Image.line numpy2 8 5 12 5 red
            (snd (Image.clear numpy2 (PyTuple [0; 0; 0]) small_image)))) = 10.
Proof.
  assert (Hreach : reachable numpy2 10 10
    (snd (Image.line numpy2 8 5 12 5 red
            (snd (Image.clear numpy2 (PyTuple [0; 0; 0]) small_image))))).
  { apply reach_line, reach_clear, (reach_init numpy2 10 10 PyNone). reflexivity. }
  split; [exact Hreach |].
  exact (proj1 (reachable_shape numpy2 10 10 _ Hreach)).
Defined.

(** ** The range of the stored channels *)

Lemma all_uint8_spec self :
  all_uint8 self = true <->
  forall i row j p,
    Image._rgba_data self !! i = Some row -> row !! j = Some p ->
    valid_pixel p = true.
Proof.
  unfold all_uint8. rewrite forallb_forall. split.
  - intros H i row j p Hrow Hp.
    assert (Hin : In row (Image._rgba_data self)).
    { apply list_elem_of_In, list_elem_of_lookup. eauto. }
    specialize (H row Hin). rewrite forallb_forall in H. apply H.
    apply list_elem_of_In, list_elem_of_lookup. eauto.
  - intros H row Hin. apply forallb_forall. intros p Hp.
    apply list_elem_of_In, list_elem_of_lookup in Hin as [i Hi].
    apply list_elem_of_In, list_elem_of_lookup in Hp as [j Hj]. eauto.
Qed.

Lemma numpy1_uint8_casts : uint8_casts numpy1.
Proof.
  intros n v. split; intros [= <-]; apply in_uint8_spec;
    pose proof (Z.mod_pos_bound n 256 ltac:(lia)); lia.
Qed.

Lemma numpy2_uint8_casts : uint8_casts numpy2.
Proof.
  intros n v. split; [discriminate |].
  intros [= <-]. apply in_uint8_spec.
  pose proof (Z.mod_pos_bound n 256 ltac:(lia)). lia.
Qed.

Lemma setitem_uint8_range np n v :
  uint8_casts np -> setitem_uint8 np n = Ok v -> in_uint8 v = true.
Proof.
  intros Hnp. unfold setitem_uint8. destruct (in_uint8 n) eqn:E.
  - intros [= <-]. assumption.
  - apply (Hnp n v).
Qed.

Lemma copyto_uint8_range np n v :
  uint8_casts np -> copyto_uint8 np n = Ok v -> in_uint8 v = true.
Proof.
  intros Hnp. unfold copyto_uint8. destruct (in_uint8 n) eqn:E.
  - intros [= <-]. assumption.
  - apply (Hnp n v).
Qed.

Lemma cast_pixel_range cast c v :
  (forall n m, cast n = Ok m -> in_uint8 m = true) ->
  cast_pixel cast c = Ok v -> valid_pixel v = true.
Proof.
  intros Hcast. destruct c as [[[r g] b] a]. unfold cast_pixel.
  destruct (cast r) as [r' |] eqn:Er; [| discriminate].
  destruct (cast g) as [g' |] eqn:Eg; [| discriminate].
  destruct (cast b) as [b' |] eqn:Eb; [| discriminate].
  destruct (cast a) as [a' |] eqn:Ea; [| discriminate].
  cbn [res_bind]. intros [= <-]. unfold valid_pixel.
  rewrite (Hcast _ _ Er), (Hcast _ _ Eg), (Hcast _ _ Eb), (Hcast _ _ Ea).
  reflexivity.
Qed.

Lemma cast_items_range cast items items' :
  (forall n m, cast n = Ok m -> in_uint8 m = true) ->
  cast_items cast items = Ok items' ->
  forall m, In m items' -> in_uint8 m = true.
Proof.
  intros Hcast. revert items'.
  induction items as [| n items IH]; intros items' H m Hin.
  - injection H as <-. destruct Hin.
  - simpl in H. destruct (cast n) as [n' |] eqn:En; [| discriminate].
    cbn [res_bind] in H.
    destruct (cast_items cast items) as [rest |]; [| discriminate].
    cbn [res_bind] in H. injection H as <-.
    destruct Hin as [<- | Hin]; [eauto | eapply IH; eauto].
Qed.

Lemma set_pixel_keeps_uint8 np x y value self :
  uint8_casts np -> all_uint8 self = true ->
  all_uint8 (snd (Image.set_pixel np x y value self)) = true.
Proof.
  intros Hnp Hall.
  unfold Image.set_pixel, Image.bind, Image.get_self, Image.lift,
    Image.set_rgba_data.
  destruct (Image._check_bounds self x y) as [[] | e1]; [| assumption].
  destruct (Image._validate_rgba value) as [c | e2]; [| assumption].
  destruct (np_setitem np (Image._rgba_data self) y x c) as [d | e3] eqn:E;
    [| assumption].
  cbn [snd]. unfold np_setitem in E.
  destruct (np_index 0 y _) as [iy |]; [| discriminate]. cbn [res_bind] in E.
  destruct (Image._rgba_data self !! iy) as [row |] eqn:Erow; [| discriminate].
  destruct (np_index 1 x _) as [ix |]; [| discriminate]. cbn [res_bind] in E.
  destruct (cast_pixel (setitem_uint8 np) c) as [v |] eqn:Ev; [| discriminate].
  cbn [res_bind] in E. injection E as <-.
  pose proof (cast_pixel_range _ _ _
                (fun n m => setitem_uint8_range np n m Hnp) Ev) as Hv.
  rewrite all_uint8_spec in *. cbn [Image._rgba_data].
  intros i r j p Hr Hp.
  destruct (decide (i = iy)) as [-> | Hne].
  - rewrite list_lookup_insert_eq in Hr by (eapply lookup_lt_Some; eassumption).
    injection Hr as <-.
    destruct (decide (j = ix)) as [-> | Hnj].
    + rewrite list_lookup_insert_eq in Hp
        by (rewrite <- (length_insert row ix v); eapply lookup_lt_Some; eassumption).
      congruence.
    + rewrite list_lookup_insert_ne in Hp by congruence. eauto.
  - rewrite list_lookup_insert_ne in Hr by congruence. eauto.
Qed.

Lemma plot_all_keeps_uint8 np pts c self :
  uint8_casts np -> all_uint8 self = true ->
  all_uint8 (snd (plot_all np pts c self)) = true.
Proof.
  intros Hnp. revert self.
  induction pts as [| [x y] pts IH]; intros self Hall; [assumption |].
  simpl. unfold Image.bind. destruct c as [[[r g] b] a].
  pose proof (set_pixel_keeps_uint8 np x y (PyTuple [r; g; b; a]) self Hnp Hall)
    as Hstep.
  unfold Image.plot, Image.except_IndexError, Image.raise.
  destruct (Image.set_pixel np x y (PyTuple [r; g; b; a]) self) as [[[] | e] self1];
    cbn [snd] in *.
  - by apply IH.
  - destruct e; assumption.
Qed.

Lemma line_keeps_uint8 np sx sy ex ey color self :
  uint8_casts np -> all_uint8 self = true ->
  all_uint8 (snd (Image.line np sx sy ex ey color self)) = true.
Proof.
  intros Hnp Hall. destruct (Image._validate_rgba color) as [c | e] eqn:Hval.
  - rewrite (line_plot_all np sx sy ex ey color c self Hval).
    by apply plot_all_keeps_uint8.
  - unfold Image.line, Image.bind, Image.lift. rewrite Hval. assumption.
Qed.

Lemma clear_keeps_uint8 np color self :
  uint8_casts np -> all_uint8 self = true ->
  all_uint8 (snd (Image.clear np color self)) = true.
Proof.
  intros Hnp Hall.
  unfold Image.clear, Image.bind, Image.get_self, Image.lift, Image.set_rgba_data.
  destruct (np_setall np _ _ (Image._rgba_data self) color) as [d | e] eqn:E;
    [| assumption].
  cbn [snd]. unfold np_setall in E.
  destruct color as [| c | items]; try discriminate.
  destruct (cast_items (setitem_uint8 np) items) as [items' |] eqn:Ec;
    [| discriminate].
  cbn [res_bind] in E.
  pose proof (cast_items_range _ _ _
                (fun n m => setitem_uint8_range np n m Hnp) Ec) as Hr.
  assert (Hfill : forall v data, valid_pixel v = true ->
    all_uint8 (Image.new (Image._width self) (Image._height self)
                 (fill_all v data)) = true).
  { intros v data Hv. apply all_uint8_spec. cbn [Image._rgba_data]. unfold fill_all.
    intros i row j p Hrow Hp. rewrite list_lookup_fmap in Hrow.
    destruct (data !! i) as [row0 |]; [| discriminate].
    simpl in Hrow. injection Hrow as <-. rewrite list_lookup_fmap in Hp.
    destruct (row0 !! j); [| discriminate]. simpl in Hp. congruence. }
  destruct items' as [| r [| g [| b [| a [| z rest]]]]]; try discriminate;
    injection E as <-; apply Hfill; unfold valid_pixel;
    rewrite ?Hr by (simpl; auto); reflexivity.
Qed.

Lemma rectangle_keeps_uint8 np tx ty bx by_ color self :
  uint8_casts np -> all_uint8 self = true ->
  all_uint8 (snd (Image.rectangle np tx ty bx by_ color self)) = true.
Proof.
  intros Hnp Hall.
  unfold Image.rectangle, Image.bind, Image.get_self, Image.lift,
    Image.set_rgba_data, Image.ret.
  destruct (Image._validate_rgba color) as [c | e1]; [| assumption].
  rewrite !sorted2_min_max.
  destruct ((_ <? _) || (_ <? _)); [assumption |].
  destruct (np_setslice np (Image._rgba_data self) _ _ _ _ c) as [d | e2] eqn:E;
    [| assumption].
  cbn [snd]. unfold np_setslice in E.
  destruct (cast_pixel (setitem_uint8 np) c) as [v |] eqn:Ev; [| discriminate].
  cbn [res_bind] in E. injection E as <-.
  pose proof (cast_pixel_range _ _ _
                (fun n m => setitem_uint8_range np n m Hnp) Ev) as Hv.
  rewrite all_uint8_spec in *. cbn [Image._rgba_data].
  intros i row j p Hrow Hp. rewrite list_lookup_imap in Hrow.
  destruct (Image._rgba_data self !! i) as [row0 |] eqn:E0; [| discriminate].
  simpl in Hrow. injection Hrow as <-.
  destruct (in_slice _ _ _ i); [| eauto].
  rewrite list_lookup_imap in Hp.
  destruct (row0 !! j) as [p0 |] eqn:Ep0; [| discriminate].
  simpl in Hp. injection Hp as <-.
  destruct (in_slice _ _ _ j); eauto.
Qed.

Lemma init_keeps_uint8 np width height fill_color self :
  uint8_casts np ->
  Image.__init__ np width height fill_color = Ok self -> all_uint8 self = true.
Proof.
  intros Hnp. unfold Image.__init__, np_full. intros H.
  destruct (Image._validate_rgba fill_color) as [c | e]; [| discriminate].
  cbn [res_bind] in H.
  destruct ((height <? 0) || (width <? 0)); [discriminate |].
  destruct ((height =? 0) || (width =? 0)).
  - injection H as <-. apply all_uint8_spec. cbn [Image._rgba_data].
    intros i row j p Hrow Hp. apply lookup_replicate in Hrow as [-> _].
    discriminate.
  - destruct (cast_pixel (copyto_uint8 np) c) as [v |] eqn:Ev; [| discriminate].
    cbn [res_bind] in H. injection H as <-.
    pose proof (cast_pixel_range _ _ _
                  (fun n m => copyto_uint8_range np n m Hnp) Ev) as Hv.
    apply all_uint8_spec. cbn [Image._rgba_data].
    intros i row j p Hrow Hp. apply lookup_replicate in Hrow as [-> _].
    apply lookup_replicate in Hp as [-> _]. assumption.
Qed.

Lemma get_pixel_stored self x y p :
  Image.get_pixel self x y = Ok p ->
  exists i row j, Image._rgba_data self !! i = Some row /\ row !! j = Some p.
Proof.
  unfold Image.get_pixel, np_getitem. intros H.
  destruct (Image._check_bounds self x y); [| discriminate]. cbn [res_bind] in H.
  destruct (np_index 0 y _) as [iy |]; [| discriminate]. cbn [res_bind] in H.
  destruct (Image._rgba_data self !! iy) as [row |] eqn:Erow; [| discriminate].
  destruct (np_index 1 x _) as [ix |]; [| discriminate]. cbn [res_bind] in H.
  destruct (row !! ix) as [q |] eqn:Eq; [| discriminate].
  injection H as <-. eauto.
Qed.

(** X8: whatever color arguments were passed, valid or not, every channel
    stored in an image is an integer of [0, 255], and so is every channel
    [get_pixel] returns: an out-of-range channel is wrapped or refused by
    the uint8 array, never stored as it is. *)
Theorem reachable_uint8 np width height self :
  uint8_casts np -> reachable np width height self ->
  all_uint8 self = true /\
  forall x y p, Image.get_pixel self x y = Ok p -> valid_pixel p = true.
Proof.
  intros Hnp Hreach.
  assert (Hall : all_uint8 self = true).
  { induction Hreach as [fill self Hinit
                        | self x y value _ IH
                        | self color _ IH
                        | self sx sy ex ey color _ IH
                        | self tx ty bx by_ color _ IH].
    - eapply init_keeps_uint8; eassumption.
    - by apply set_pixel_keeps_uint8.
    - by apply clear_keeps_uint8.
    - by apply line_keeps_uint8.
    - by apply rectangle_keeps_uint8. }
  split; [assumption |].
  intros x y p Hget. apply get_pixel_stored in Hget as (i & row & j & Hrow & Hp).
  rewrite all_uint8_spec in Hall. eauto.
Qed.

Lemma reachable_uint8_witness :
  uint8_casts numpy1 /\
  reachable numpy1 10 10
    (snd (Image.set_pixel numpy1 0 0 (PyTuple [300; 0; 0]) small_image)) /\
  all_uint8 (snd (Image.set_pixel numpy1 0 0 (PyTuple [300; 0; 0]) small_image)) = true.
Proof.
  assert (Hreach : reachable numpy1 10 10
    (snd (Image.set_pixel numpy1 0 0 (PyTuple [300; 0; 0]) small_image))).
  { apply reach_set_pixel, (reach_init numpy1 10 10 PyNone). reflexivity. }
  split; [exact numpy1_uint8_casts |]. split; [exact Hreach |].
  exact (proj1 (reachable_uint8 numpy1 10 10 _ numpy1_uint8_casts Hreach)).
Defined.

(** ** Bulk writes *)

Lemma cast_items_valid np r g b a :
  valid_pixel (r, g, b, a) = true ->
  cast_items (setitem_uint8 np) [r; g; b; a] = Ok [r; g; b; a].
Proof.
  unfold valid_pixel. rewrite !andb_true_iff. intros [[[Hr Hg] Hb] Ha].
  simpl. unfold setitem_uint8. rewrite Hr, Hg, Hb, Ha. reflexivity.
Qed.

Lemma clear_filled np self r g b a :
  shaped self = true -> valid_pixel (r, g, b, a) = true ->
  exists self',
    Image.clear np (PyTuple [r; g; b; a]) self = (Ok tt, self') /\
    shaped self' = true /\
    Image.width self' = Image.width self /\
    Image.height self' = Image.height self /\
    forall x y, inside self (x, y) = true ->
      pixel_at (Image._rgba_data self') x y = Some (r, g, b, a).
Proof.
  intros Hs Hc.
  pose proof (clear_keeps_shape np (PyTuple [r; g; b; a]) self Hs) as (Hs' & Hw & Hh).
  revert Hs' Hw Hh.
  unfold Image.clear, Image.bind, Image.get_self, Image.lift, Image.set_rgba_data,
    np_setall.
  rewrite cast_items_valid by assumption. cbn [res_bind fst snd].
  intros Hs' Hw Hh. eexists. split; [reflexivity |].
  split; [assumption | split; [assumption | split; [assumption |]]].
  intros x y Hin.
  destruct (pixel_at_inside _ _ _ Hs Hin) as (row & p & Hrow & _ & Hp & _).
  cbn [Image._rgba_data]. unfold pixel_at, fill_all.
  rewrite list_lookup_fmap, Hrow. simpl. rewrite list_lookup_fmap, Hp. reflexivity.
Qed.

(** X9: [clear] with a 4-tuple of valid channels returns normally and
    leaves exactly the image the constructor builds for the same dimensions
    and fill color: every pixel reads as that tuple. *)
Theorem clear_gives_fresh_image np self r g b a :
  shaped self = true -> valid_pixel (r, g, b, a) = true ->
  fst (Image.clear np (PyTuple [r; g; b; a]) self) = Ok tt /\
  Image.__init__ np (Image.width self) (Image.height self) (PyTuple [r; g; b; a]) =
    Ok (snd (Image.clear np (PyTuple [r; g; b; a]) self)) /\
  forall x y, inside self (x, y) = true ->
    Image.get_pixel (snd (Image.clear np (PyTuple [r; g; b; a]) self)) x y =
    Ok (r, g, b, a).
Proof.
  intros Hs Hc.
  destruct (clear_filled np self r g b a Hs Hc)
    as (self' & -> & Hs' & Hw & Hh & Hpix).
  cbn [fst snd]. split; [reflexivity |].
  pose proof Hs as Hshape. apply shaped_spec in Hshape as (Hw0 & Hh0 & _).
  destruct (init_shaped np (Image.width self) (Image.height self)
              (PyTuple [r; g; b; a]) (r, g, b, a) Hw0 Hh0 eq_refl Hc)
    as (fresh & -> & Hsf & Hwf & Hhf & Hpixf).
  split.
  - f_equal. symmetry. apply image_ext; try congruence.
    intros x y Hin. rewrite Hpixf by assumption.
    apply Hpix. apply inside_spec. apply inside_spec in Hin. lia.
  - intros x y Hin.
    assert (Hin' : inside self' (x, y) = true).
    { apply inside_spec. apply inside_spec in Hin. lia. }
    rewrite (get_pixel_pixel_at self' x y Hs' Hin'), (Hpix x y Hin). reflexivity.
Qed.

Lemma clear_gives_fresh_image_witness :
  shaped small_image = true /\ valid_pixel (1, 2, 3, 4) = true /\
  Image.__init__ numpy2 10 10 (PyTuple [1; 2; 3; 4]) =
    Ok (snd (Image.clear numpy2 (PyTuple [1; 2; 3; 4]) small_image)).
Proof.
  split; [reflexivity |]. split; [reflexivity |].
  destruct (clear_gives_fresh_image numpy2 small_image 1 2 3 4 eq_refl eq_refl)
    as (_ & Hfresh & _).
  exact Hfresh.
Defined.

(** X10: a [rectangle] whose corners reach or pass all four edges of the
    image does what [clear] does with the same 4-tuple: both return normally
    and leave the same image. *)
Theorem covering_rectangle_is_clear np self tx ty bx by_ r g b a :
  shaped self = true -> valid_pixel (r, g, b, a) = true ->
  tx <= 0 -> ty <= 0 -> Image.width self - 1 <= bx -> Image.height self - 1 <= by_ ->
  Image.rectangle np tx ty bx by_ (PyTuple [r; g; b; a]) self =
  Image.clear np (PyTuple [r; g; b; a]) self.
Proof.
  intros Hs Hc Htx Hty Hbx Hby.
  destruct (clear_filled np self r g b a Hs Hc)
    as (cleared & -> & Hsc & Hwc & Hhc & Hpixc).
  pose proof Hs as Hshape. apply shaped_spec in Hshape as (Hw0 & Hh0 & _).
  destruct (decide (1 <= Image.width self /\ 1 <= Image.height self))
    as [Hpos | Hzero].
  - destruct (rectangle_filled np self tx ty bx by_ (PyTuple [r; g; b; a])
                (r, g, b, a) Hs eq_refl Hc ltac:(lia) ltac:(lia))
      as (filled & -> & Hsf & Hwf & Hhf & Hpixf).
    f_equal. apply image_ext; try congruence.
    intros x y Hin.
    assert (Hin' : inside self (x, y) = true).
    { apply inside_spec. apply inside_spec in Hin. lia. }
    rewrite Hpixf, Hpixc by assumption.
    apply inside_spec in Hin'.
    replace (Z.max 0 (Z.min tx bx) <=? x) with true
      by (symmetry; apply Z.leb_le; lia).
    replace (x <=? Z.min (Image.width self - 1) (Z.max tx bx)) with true
      by (symmetry; apply Z.leb_le; lia).
    replace (Z.max 0 (Z.min ty by_) <=? y) with true
      by (symmetry; apply Z.leb_le; lia).
    replace (y <=? Z.min (Image.height self - 1) (Z.max ty by_)) with true
      by (symmetry; apply Z.leb_le; lia).
    reflexivity.
  - rewrite (rectangle_outside np self tx ty bx by_ (PyTuple [r; g; b; a])
               (r, g, b, a) eq_refl) by lia.
    f_equal. symmetry. apply image_ext; try assumption.
    intros x y Hin. apply inside_spec in Hin. lia.
Qed.

Lemma covering_rectangle_is_clear_witness :
  shaped small_image = true /\ valid_pixel (1, 2, 3, 4) = true /\
  Image.rectangle numpy2 (-5) 0 9 40 (PyTuple [1; 2; 3; 4]) small_image =
  Image.clear numpy2 (PyTuple [1; 2; 3; 4]) small_image.
Proof.
  split; [reflexivity |]. split; [reflexivity |].
  apply (covering_rectangle_is_clear numpy2 small_image (-5) 0 9 40 1 2 3 4
           eq_refl eq_refl); vm_compute; discriminate.
Defined.

(** X11: the two corners of [rectangle] may be given in any order, and
    any two opposite corners of the same rectangle will do: the result is
    the same, errors included. *)
Theorem rectangle_corner_order np tx ty bx by_ color self :
  Image.rectangle np bx by_ tx ty color self =
    Image.rectangle np tx ty bx by_ color self /\
  Image.rectangle np tx by_ bx ty color self =
    Image.rectangle np tx ty bx by_ color self /\
  Image.rectangle np bx ty tx by_ color self =
    Image.rectangle np tx ty bx by_ color self.
Proof.
  unfold Image.rectangle, Image.bind, Image.lift, Image.get_self.
  destruct (Image._validate_rgba color) as [c | e]; [| auto].
  rewrite !sorted2_min_max.
  rewrite (Z.min_comm bx tx), (Z.max_comm bx tx),
          (Z.min_comm by_ ty), (Z.max_comm by_ ty).
  auto.
Qed.

(** X12: filling the same rectangle twice leaves the image of filling it
    once. *)
Theorem rectangle_idempotent np tx ty bx by_ color c self :
  shaped self = true ->
  Image._validate_rgba color = Ok c -> valid_pixel c = true ->
  Image.rectangle np tx ty bx by_ color
    (snd (Image.rectangle np tx ty bx by_ color self)) =
  Image.rectangle np tx ty bx by_ color self.
Proof.
  intros Hs Hval Hc.
  destruct (decide (Z.max 0 (Z.min tx bx) <= Z.min (Image.width self - 1) (Z.max tx bx)
                    /\ Z.max 0 (Z.min ty by_)
                       <= Z.min (Image.height self - 1) (Z.max ty by_)))
    as [[Hx Hy] | Hempty].
  - destruct (rectangle_filled np self tx ty bx by_ color c Hs Hval Hc Hx Hy)
      as (once & -> & Hs1 & Hw1 & Hh1 & Hpix1).
    cbn [snd].
    destruct (rectangle_filled np once tx ty bx by_ color c Hs1 Hval Hc
                ltac:(rewrite Hw1; exact Hx) ltac:(rewrite Hh1; exact Hy))
      as (twice & -> & Hs2 & Hw2 & Hh2 & Hpix2).
    f_equal. apply image_ext; try assumption.
    intros x y Hin. rewrite Hpix2 by assumption. rewrite Hw1, Hh1.
    assert (Hin' : inside self (x, y) = true).
    { apply inside_spec. apply inside_spec in Hin. lia. }
    rewrite Hpix1 by assumption.
    destruct ((_ <=? x) && (x <=? _) && ((_ <=? y) && (y <=? _))); reflexivity.
  - rewrite (rectangle_outside np self tx ty bx by_ color c Hval) by lia.
    cbn [snd]. apply (rectangle_outside np self tx ty bx by_ color c Hval). lia.
Qed.

Lemma rectangle_idempotent_witness :
  shaped small_image = true /\
  Image.rectangle numpy2 2 3 50 6 red
    (snd (Image.rectangle numpy2 2 3 50 6 red small_image)) =
  Image.rectangle numpy2 2 3 50 6 red small_image.
Proof.
  split; [reflexivity |].
  apply (rectangle_idempotent numpy2 2 3 50 6 red (255, 0, 0, 255) small_image
           eq_refl eq_refl eq_refl).
Defined.

(** ** Particular lines *)

Lemma minor_offset_flat big k : 0 < big -> minor_offset big 0 k = 0.
Proof.
  intros Hb. unfold minor_offset.
  assert (0 <= big / 2 < big) by (split; [apply Z.div_pos | apply Z.div_lt]; lia).
  apply Z.div_small. lia.
Qed.

Lemma minor_offset_diagonal big k : 0 < big -> minor_offset big big k = k.
Proof.
  intros Hb. unfold minor_offset.
  assert (0 <= big / 2 < big) by (split; [apply Z.div_pos | apply Z.div_lt]; lia).
  rewrite Z.div_add_l by lia. rewrite Z.div_small by lia. lia.
Qed.

Lemma line_point_straight sx sy ex ey k :
  sx = ex \/ sy = ey \/ Z.abs (sx - ex) = Z.abs (sy - ey) ->
  0 <= k <= Z.max (Z.abs (sx - ex)) (Z.abs (sy - ey)) ->
  line_point sx sy ex ey k =
  (sx + k * Z.sgn (ex - sx), sy + k * Z.sgn (ey - sy)).
Proof.
  intros Hcase Hk. unfold line_point.
  destruct (Z.ltb_spec (Z.abs (sy - ey)) (Z.abs (sx - ex))) as [Hlt | Hge].
  - assert (sy = ey) as -> by lia.
    replace (Z.abs (ey - ey)) with 0 by lia.
    rewrite minor_offset_flat by lia.
    destruct (Z.ltb_spec sx ex); f_equal; lia.
  - destruct (decide (Z.abs (sy - ey) = 0)) as [H0 | H0].
    + assert (k = 0) as -> by lia. rewrite minor_offset_0 by lia. f_equal; lia.
    + destruct (decide (sx = ex)) as [-> | Hne].
      * replace (Z.abs (ex - ex)) with 0 by lia.
        rewrite minor_offset_flat by lia.
        destruct (Z.ltb_spec sy ey); f_equal; lia.
      * assert (Hd : Z.abs (sx - ex) = Z.abs (sy - ey)) by lia.
        rewrite Hd, minor_offset_diagonal by lia.
        destruct (Z.ltb_spec sx ex), (Z.ltb_spec sy ey); f_equal; lia.
Qed.

Lemma straight_line_list sx sy ex ey :
  sx = ex \/ sy = ey \/ Z.abs (sx - ex) = Z.abs (sy - ey) ->
  line_points sx sy ex ey =
  (fun k => (sx + k * Z.sgn (ex - sx), sy + k * Z.sgn (ey - sy)))
    <$> seqZ 0 (Z.max (Z.abs (sx - ex)) (Z.abs (sy - ey)) + 1).
Proof.
  intros Hcase. apply list_eq. intros i.
  rewrite list_lookup_fmap.
  destruct (decide (Z.of_nat i < Z.max (Z.abs (sx - ex)) (Z.abs (sy - ey)) + 1))
    as [Hi | Hi].
  - rewrite lookup_seqZ_lt by assumption. simpl.
    rewrite line_points_lookup_nat by (rewrite line_points_length; lia).
    f_equal. apply line_point_straight; [assumption | lia].
  - rewrite lookup_seqZ_ge by lia. simpl.
    apply lookup_ge_None_2. rewrite line_points_length. lia.
Qed.

(** X13: a horizontal, vertical or exact-diagonal [line] passes to
    [set_pixel] exactly the coordinates
    [(x0 + k * sign(x1 - x0), y0 + k * sign(y1 - y0))] for
    [k = 0 .. max(dx, dy)], in this order. *)
Theorem straight_line_points np sx sy ex ey color c self :
  sx = ex \/ sy = ey \/ Z.abs (sx - ex) = Z.abs (sy - ey) ->
  Image._validate_rgba color = Ok c ->
  let pts :=
    (fun k => (sx + k * Z.sgn (ex - sx), sy + k * Z.sgn (ey - sy)))
      <$> seqZ 0 (Z.max (Z.abs (sx - ex)) (Z.abs (sy - ey)) + 1) in
  line_points sx sy ex ey = pts /\
  Image.line np sx sy ex ey color self = plot_all np pts c self.
Proof.
  intros Hcase Hval pts.
  pose proof (straight_line_list sx sy ex ey Hcase) as Hpts. fold pts in Hpts.
  split; [assumption |].
  rewrite (line_plot_all np sx sy ex ey color c self Hval), Hpts. reflexivity.
Qed.

Lemma straight_line_points_witness :
  Z.abs (1 - 5) = Z.abs (1 - 5) /\
  line_points 1 1 5 5 = [(1, 1); (2, 2); (3, 3); (4, 4); (5, 5)] /\
  Image.line numpy2 1 1 5 5 red small_image =
  plot_all numpy2 [(1, 1); (2, 2); (3, 3); (4, 4); (5, 5)] (255, 0, 0, 255) small_image.
Proof.
  split; [reflexivity |].
  apply (straight_line_points numpy2 1 1 5 5 red (255, 0, 0, 255) small_image).
  - right. right. reflexivity.
  - reflexivity.
Defined.

Lemma axis_aligned_mem sx sy ex ey x y :
  sx = ex \/ sy = ey ->
  (x, y) ∈ line_points sx sy ex ey <->
  Z.min sx ex <= x <= Z.max sx ex /\ Z.min sy ey <= y <= Z.max sy ey.
Proof.
  intros Hcase. split.
  - intros Hin. apply list_elem_of_lookup in Hin as [i Hi].
    apply line_points_lookup_Some in Hi as [Hk Hp].
    pose proof (line_point_box sx sy ex ey _ Hk) as Hbox.
    rewrite <- Hp in Hbox. exact Hbox.
  - intros [Hx Hy].
    apply list_elem_of_lookup.
    exists (Z.to_nat (Z.abs (x - sx) + Z.abs (y - sy))).
    rewrite line_points_lookup by lia.
    rewrite line_point_straight by lia. f_equal. f_equal; lia.
Qed.

(** X14: a horizontal or vertical [line] between two pixels of the image
    does what [rectangle] does with the same two corners: both return
    normally and leave the same image. *)
Theorem axis_aligned_line_is_rectangle np self sx sy ex ey color c :
  shaped self = true ->
  Image._validate_rgba color = Ok c -> valid_pixel c = true ->
  inside self (sx, sy) = true -> inside self (ex, ey) = true ->
  sx = ex \/ sy = ey ->
  Image.line np sx sy ex ey color self = Image.rectangle np sx sy ex ey color self.
Proof.
  intros Hs Hval Hc Hstart Hend Hcase.
  pose proof (line_points_inside self sx sy ex ey Hstart Hend) as Hall.
  destruct (line_inside_run np self sx sy ex ey color c Hs Hval Hc Hall)
    as (lined & -> & Hs1 & Hw1 & Hh1 & Hpix1).
  apply inside_spec in Hstart, Hend.
  destruct (rectangle_filled np self sx sy ex ey color c Hs Hval Hc
              ltac:(lia) ltac:(lia))
    as (filled & -> & Hs2 & Hw2 & Hh2 & Hpix2).
  f_equal. apply image_ext; try congruence.
  intros x y Hin.
  assert (Hin' : inside self (x, y) = true).
  { apply inside_spec. apply inside_spec in Hin. lia. }
  rewrite Hpix2 by assumption.
  apply inside_spec in Hin'. rewrite Hpix1 by lia.
  pose proof (axis_aligned_mem sx sy ex ey x y Hcase) as Hmem.
  destruct (bool_decide_reflect ((x, y) ∈ line_points sx sy ex ey)) as [Hyes | Hno].
  - apply Hmem in Hyes.
    replace (Z.max 0 (Z.min sx ex) <=? x) with true
      by (symmetry; apply Z.leb_le; lia).
    replace (x <=? Z.min (Image.width self - 1) (Z.max sx ex)) with true
      by (symmetry; apply Z.leb_le; lia).
    replace (Z.max 0 (Z.min sy ey) <=? y) with true
      by (symmetry; apply Z.leb_le; lia).
    replace (y <=? Z.min (Image.height self - 1) (Z.max sy ey)) with true
      by (symmetry; apply Z.leb_le; lia).
    reflexivity.
  - destruct ((_ <=? x) && (x <=? _) && ((_ <=? y) && (y <=? _))) eqn:E;
      [| reflexivity].
    exfalso. apply Hno, Hmem.
    rewrite !andb_true_iff, !Z.leb_le in E. lia.
Qed.

Lemma axis_aligned_line_is_rectangle_witness :
  shaped small_image = true /\
  inside small_image (4, 2) = true /\ inside small_image (4, 7) = true /\
  Image.line numpy2 4 2 4 7 red small_image =
  Image.rectangle numpy2 4 2 4 7 red small_image.
Proof.
  split; [reflexivity |]. split; [reflexivity |]. split; [reflexivity |].
  apply (axis_aligned_line_is_rectangle numpy2 small_image 4 2 4 7 red
           (255, 0, 0, 255) eq_refl eq_refl eq_refl eq_refl eq_refl).
  left. reflexivity.
Defined.

(** X15: with a valid color [line] returns normally exactly when both
    endpoints are pixels of the image: checking the two endpoints is enough,
    since every rasterised coordinate lies in their bounding box. *)
Theorem line_ok_iff_endpoints_inside np self sx sy ex ey color c :
  shaped self = true ->
  Image._validate_rgba color = Ok c -> valid_pixel c = true ->
  (fst (Image.line np sx sy ex ey color self) = Ok tt <->
   inside self (sx, sy) = true /\ inside self (ex, ey) = true) /\
  (forall x y, (x, y) ∈ line_points sx sy ex ey ->
     Z.min sx ex <= x <= Z.max sx ex /\ Z.min sy ey <= y <= Z.max sy ey).
Proof.
  intros Hs Hval Hc. split.
  - split.
    + intros Hok.
      destruct (forallb (inside self) (line_points sx sy ex ey)) eqn:Hall.
      * rewrite forallb_forall in Hall. split; apply Hall, list_elem_of_In.
        -- apply head_Some_elem_of, line_points_head.
        -- apply last_Some_elem_of, line_points_last.
      * destruct (forallb_first_false _ _ Hall)
          as (pre & p & post & Hsplit & Hpre & Hp).
        rewrite (line_plot_all np sx sy ex ey color c self Hval), Hsplit in Hok.
        destruct (plot_all_outside np pre p post c self Hs Hc Hpre Hp)
          as (self' & Hrun & _).
        rewrite Hrun in Hok. discriminate.
    + intros [Hstart Hend].
      pose proof (line_points_inside self sx sy ex ey Hstart Hend) as Hall.
      destruct (line_inside_run np self sx sy ex ey color c Hs Hval Hc Hall)
        as (self' & -> & _).
      reflexivity.
  - intros x y Hin. apply list_elem_of_lookup in Hin as [i Hi].
    apply line_points_lookup_Some in Hi as [Hk Hp].
    pose proof (line_point_box sx sy ex ey _ Hk) as Hbox.
    rewrite <- Hp in Hbox. exact Hbox.
Qed.

Lemma line_ok_iff_endpoints_inside_witness :
  shaped small_image = true /\
  inside small_image (0, 9) = true /\ inside small_image (9, 3) = true /\
  fst (Image.line numpy2 0 9 9 3 red small_image) = Ok tt.
Proof.
  split; [reflexivity |]. split; [reflexivity |]. split; [reflexivity |].
  apply (line_ok_iff_endpoints_inside numpy2 small_image 0 9 9 3 red
           (255, 0, 0, 255) eq_refl eq_refl eq_refl).
  split; reflexivity.
Defined.

Lemma line_points_point x y : line_points x y x y = [(x, y)].
Proof. unfold line_points. rewrite !Z.sub_diag. reflexivity. Qed.

Lemma set_pixel_raise_unchanged np self x y value e :
  fst (Image.set_pixel np x y value self) = Raise e ->
  snd (Image.set_pixel np x y value self) = self.
Proof.
  unfold Image.set_pixel, Image.bind, Image.get_self, Image.lift,
    Image.set_rgba_data.
  destruct (Image._check_bounds self x y) as [[] | e1]; [| reflexivity].
  destruct (Image._validate_rgba value) as [c | e2]; [| reflexivity].
  destruct (np_setitem np (Image._rgba_data self) y x c) as [d | e3];
    [discriminate | reflexivity].
Qed.

(** X16: a [line] from a coordinate to itself does what [set_pixel] does
    there, for every color argument and every image: the same image is left
    behind, and one call returns normally exactly when the other does. *)
Theorem point_line_is_set_pixel np self x y color :
  snd (Image.line np x y x y color self) = snd (Image.set_pixel np x y color self) /\
  (fst (Image.line np x y x y color self) = Ok tt <->
   fst (Image.set_pixel np x y color self) = Ok tt).
Proof.
  destruct (Image._validate_rgba color) as [[[[r g] b] a] | e] eqn:Hval.
  - rewrite (line_plot_all np x y x y color (r, g, b, a) self Hval).
    rewrite line_points_point.
    assert (Hsame : Image.set_pixel np x y (PyTuple [r; g; b; a]) self =
                    Image.set_pixel np x y color self).
    { unfold Image.set_pixel, Image.bind, Image.get_self, Image.lift.
      rewrite Hval. reflexivity. }
    cbn [plot_all].
    unfold Image.bind, Image.plot, Image.except_IndexError, Image.raise, Image.ret.
    rewrite Hsame.
    pose proof (set_pixel_raise_unchanged np self x y color) as Hkeep.
    destruct (Image.set_pixel np x y color self) as [[[] | e] self1];
      cbn [fst snd] in *.
    + split; reflexivity.
    + specialize (Hkeep e eq_refl). subst self1.
      destruct e; cbn [fst snd]; (split; [reflexivity | split; discriminate]).
  - unfold Image.line, Image.bind, Image.lift. rewrite Hval. cbn [fst snd].
    unfold Image.set_pixel, Image.bind, Image.get_self, Image.lift.
    destruct (Image._check_bounds self x y) as [[] | e1]; rewrite ?Hval;
      cbn [fst snd]; (split; [reflexivity | split; discriminate]).
Qed.

(** ** Successive writes *)

(** X17: pixel writes replace and do not interfere: a second [set_pixel]
    at the same coordinate leaves the image of the second write alone, and
    two writes at different coordinates leave the same image in either
    order. *)
Theorem set_pixel_writes_compose np self x1 y1 x2 y2 color1 color2 c1 c2 :
  shaped self = true ->
  inside self (x1, y1) = true -> inside self (x2, y2) = true ->
  Image._validate_rgba color1 = Ok c1 -> valid_pixel c1 = true ->
  Image._validate_rgba color2 = Ok c2 -> valid_pixel c2 = true ->
  let after1 := snd (Image.set_pixel np x1 y1 color1 self) in
  let after2 := snd (Image.set_pixel np x2 y2 color2 self) in
  ((x1, y1) = (x2, y2) ->
   snd (Image.set_pixel np x2 y2 color2 after1) = after2) /\
  ((x1, y1) <> (x2, y2) ->
   snd (Image.set_pixel np x2 y2 color2 after1) =
   snd (Image.set_pixel np x1 y1 color1 after2)).
Proof.
  intros Hs Hin1 Hin2 Hv1 Hc1 Hv2 Hc2 after1 after2. subst after1 after2.
  destruct (set_pixel_inside np self x1 y1 color1 c1 Hs Hin1 Hv1 Hc1)
    as (s1 & -> & Hs1 & Hw1 & Hh1 & Hp1).
  destruct (set_pixel_inside np self x2 y2 color2 c2 Hs Hin2 Hv2 Hc2)
    as (s2 & -> & Hs2 & Hw2 & Hh2 & Hp2).
  cbn [snd].
  assert (Hin21 : inside s1 (x2, y2) = true).
  { apply inside_spec. apply inside_spec in Hin2. lia. }
  assert (Hin12 : inside s2 (x1, y1) = true).
  { apply inside_spec. apply inside_spec in Hin1. lia. }
  destruct (set_pixel_inside np s1 x2 y2 color2 c2 Hs1 Hin21 Hv2 Hc2)
    as (s12 & -> & Hs12 & Hw12 & Hh12 & Hp12).
  destruct (set_pixel_inside np s2 x1 y1 color1 c1 Hs2 Hin12 Hv1 Hc1)
    as (s21 & -> & Hs21 & Hw21 & Hh21 & Hp21).
  cbn [snd]. split.
  - intros [= -> ->]. apply image_ext; try congruence.
    intros x y Hin. apply inside_spec in Hin.
    rewrite Hp12, Hp1, Hp2 by lia.
    destruct ((x =? x2) && (y =? y2)); reflexivity.
  - intros Hne. apply image_ext; try congruence.
    intros x y Hin. apply inside_spec in Hin.
    rewrite Hp12, Hp1, Hp21, Hp2 by lia.
    destruct (Z.eqb_spec x x1), (Z.eqb_spec y y1), (Z.eqb_spec x x2),
             (Z.eqb_spec y y2); cbn [andb]; try reflexivity.
    congruence.
Qed.

Lemma set_pixel_writes_compose_witness :
  shaped small_image = true /\
  snd (Image.set_pixel numpy2 1 0 (PyTuple [0; 255; 0])
         (snd (Image.set_pixel numpy2 0 0 red small_image))) =
  snd (Image.set_pixel numpy2 0 0 red
         (snd (Image.set_pixel numpy2 1 0 (PyTuple [0; 255; 0]) small_image))).
Proof.
  split; [reflexivity |].
  destruct (set_pixel_writes_compose numpy2 small_image 0 0 1 0 red
              (PyTuple [0; 255; 0]) (255, 0, 0, 255) (0, 255, 0, 255)
              eq_refl eq_refl eq_refl eq_refl eq_refl eq_refl eq_refl)
    as [_ Hcomm].
  apply Hcomm. discriminate.
Defined.

(** * The demo driver *)

Section Demo.

Context {rng : Type} (draw : Z -> Z -> rng -> Z * rng) (np : numpy).
Hypothesis Hdraw : draws_in_range draw.

Lemma randint_in_range a b s :
  a <= b ->
  exists n s', main.randint rng draw a b s = (Ok n, s') /\ a <= n <= b.
Proof.
  intros Hab. unfold main.randint.
  replace (b <? a) with false by (symmetry; apply Z.ltb_ge; lia).
  pose proof (Hdraw a b s Hab) as Hr.
  destruct (draw a b s) as [n s']. simpl in Hr. eauto.
Qed.

Lemma rand_rgb_ok s :
  exists r g b s',
    main.rand_rgb rng draw s = (Ok (rgba.new r g b 255), s') /\
    valid_pixel (r, g, b, 255) = true.
Proof.
  unfold main.rand_rgb, main.bind, main.lift.
  destruct (randint_in_range 0 255 s ltac:(lia)) as (r & s1 & -> & Hr).
  destruct (randint_in_range 0 255 s1 ltac:(lia)) as (g & s2 & -> & Hg).
  destruct (randint_in_range 0 255 s2 ltac:(lia)) as (b & s3 & -> & Hb).
  assert (Hv : valid_pixel (r, g, b, 255) = true) by (apply valid_pixel_spec; lia).
  exists r, g, b, s3. rewrite (proj2 (rgba_init_valid r g b 255) Hv). auto.
Qed.

Lemma rand_pos_ok width height s :
  1 <= width -> 1 <= height ->
  exists x y s',
    main.rand_pos rng draw width height s = (Ok (x, y), s') /\
    0 <= x < width /\ 0 <= y < height.
Proof.
  intros Hw Hh. unfold main.rand_pos, main.bind, main.ret.
  destruct (randint_in_range 0 (width - 1) s ltac:(lia)) as (x & s1 & -> & Hx).
  destruct (randint_in_range 0 (height - 1) s1 ltac:(lia)) as (y & s2 & -> & Hy).
  exists x, y, s2. split; [reflexivity | lia].
Qed.

Lemma for_invariant {A S} (I : S -> Prop) (P : A -> Prop) items
    (body : A -> S -> main.D rng S) :
  (forall a st s, P a -> I st ->
     exists st' s', body a st s = (Ok st', s') /\ I st') ->
  Forall P items ->
  forall st s, I st ->
    exists st' s', main.for_ rng items body st s = (Ok st', s') /\ I st'.
Proof.
  intros Hbody Hall. induction Hall as [| a items Ha _ IH]; intros st s Hst.
  - exists st, s. split; [reflexivity | assumption].
  - cbn [main.for_]. unfold main.bind.
    destruct (Hbody a st s Ha Hst) as (st1 & s1 & -> & Hst1).
    apply IH. assumption.
Qed.

End Demo.

(** The state every image of the demos is in. *)
Lemma opaque_painted pts r g b self self' :
  shaped self = true -> opaque self -> valid_pixel (r, g, b, 255) = true ->
  painted pts (r, g, b, 255) self self' -> opaque self'.
Proof.
  intros Hs Hop Hc (Hs' & Hw & Hh & Hpix) x y Hin.
  assert (Hin' : inside self (x, y) = true).
  { apply inside_spec. apply inside_spec in Hin. lia. }
  apply inside_spec in Hin. rewrite Hpix by lia.
  destruct (bool_decide ((x, y) ∈ pts)); [eauto | apply Hop; assumption].
Qed.

Lemma opaque_init np width height self :
  Image.__init__ np width height PyNone = Ok self -> opaque self.
Proof.
  intros Hinit.
  assert (0 <= width /\ 0 <= height) as [Hw Hh].
  { destruct (init_keeps_shape np width height PyNone self Hinit) as (Hs & Hw & Hh).
    apply shaped_spec in Hs. lia. }
  destruct (init_shaped np width height PyNone (255, 255, 255, 255) Hw Hh
              eq_refl eq_refl) as (self0 & Hinit0 & _ & _ & _ & Hpix).
  rewrite Hinit in Hinit0. injection Hinit0 as <-.
  intros x y Hin. exists 255, 255, 255. split; [apply Hpix; assumption | reflexivity].
Qed.

Lemma demo_image_init np :
  exists image, Image.__init__ np 512 512 PyNone = Ok image /\ demo_image image.
Proof.
  destruct (init_shaped np 512 512 PyNone (255, 255, 255, 255) ltac:(lia) ltac:(lia)
              eq_refl eq_refl) as (image & Hinit & Hs & Hw & Hh & _).
  exists image. split; [assumption |].
  split; [assumption | split; [assumption | split; [assumption |]]].
  eapply opaque_init; eassumption.
Qed.

Lemma demo_image_painted pts r g b self self' :
  demo_image self -> valid_pixel (r, g, b, 255) = true ->
  painted pts (r, g, b, 255) self self' -> demo_image self'.
Proof.
  intros (Hs & Hw & Hh & Hop) Hc Hpaint.
  pose proof Hpaint as (Hs' & Hw' & Hh' & _).
  split; [assumption | split; [congruence | split; [congruence |]]].
  exact (opaque_painted pts r g b self self' Hs Hop Hc Hpaint).
Qed.

Lemma demo_image_set_pixel np x y r g b self :
  demo_image self -> 0 <= x < 512 -> 0 <= y < 512 ->
  valid_pixel (r, g, b, 255) = true ->
  exists self',
    Image.set_pixel np x y (PyRgba (rgba.new r g b 255)) self = (Ok tt, self') /\
    demo_image self'.
Proof.
  intros Hdemo Hx Hy Hc. pose proof Hdemo as (Hs & Hw & Hh & Hop).
  assert (Hin : inside self (x, y) = true) by (apply inside_spec; lia).
  destruct (plot_inside np self x y (r, g, b, 255) Hs Hin Hc)
    as (self' & Hplot & Hpaint).
  exists self'. split; [| eapply demo_image_painted; eassumption].
  unfold Image.plot, Image.except_IndexError in Hplot.
  assert (Hsame : Image.set_pixel np x y (PyRgba (rgba.new r g b 255)) self =
                  Image.set_pixel np x y (PyTuple [r; g; b; 255]) self) by reflexivity.
  rewrite Hsame.
  destruct (Image.set_pixel np x y (PyTuple [r; g; b; 255]) self) as [[[] | e] s1].
  - assumption.
  - destruct e; discriminate.
Qed.

Lemma demo_image_line np sx sy ex ey r g b self :
  demo_image self -> 0 <= sx < 512 -> 0 <= sy < 512 -> 0 <= ex < 512 -> 0 <= ey < 512 ->
  valid_pixel (r, g, b, 255) = true ->
  exists self',
    Image.line np sx sy ex ey (PyRgba (rgba.new r g b 255)) self = (Ok tt, self') /\
    demo_image self'.
Proof.
  intros Hdemo Hsx Hsy Hex Hey Hc. pose proof Hdemo as (Hs & Hw & Hh & Hop).
  assert (Hstart : inside self (sx, sy) = true) by (apply inside_spec; lia).
  assert (Hend : inside self (ex, ey) = true) by (apply inside_spec; lia).
  pose proof (line_points_inside self sx sy ex ey Hstart Hend) as Hall.
  destruct (line_inside_run np self sx sy ex ey (PyRgba (rgba.new r g b 255))
              (r, g, b, 255) Hs eq_refl Hc Hall) as (self' & Hrun & Hpaint).
  exists self'. split; [assumption | eapply demo_image_painted; eassumption].
Qed.

Lemma demo_image_rectangle np tx ty bx by_ r g b self :
  demo_image self -> valid_pixel (r, g, b, 255) = true ->
  exists self',
    Image.rectangle np tx ty bx by_ (PyRgba (rgba.new r g b 255)) self = (Ok tt, self') /\
    demo_image self'.
Proof.
  intros Hdemo Hc. pose proof Hdemo as (Hs & Hw & Hh & Hop).
  destruct (decide (Z.max 0 (Z.min tx bx) <= Z.min (Image.width self - 1) (Z.max tx bx)
                    /\ Z.max 0 (Z.min ty by_)
                       <= Z.min (Image.height self - 1) (Z.max ty by_)))
    as [[Hx Hy] | Hempty].
  - destruct (rectangle_filled np self tx ty bx by_ (PyRgba (rgba.new r g b 255))
                (r, g, b, 255) Hs eq_refl Hc Hx Hy)
      as (self' & Hrun & Hs' & Hw' & Hh' & Hpix).
    exists self'. split; [assumption |].
    split; [assumption | split; [congruence | split; [congruence |]]].
    intros x y Hin.
    assert (Hin' : inside self (x, y) = true).
    { apply inside_spec. apply inside_spec in Hin. lia. }
    rewrite Hpix by assumption.
    destruct ((_ <=? x) && (x <=? _) && ((_ <=? y) && (y <=? _)));
      [eauto | apply Hop; assumption].
  - exists self. split; [| assumption].
    apply (rectangle_outside np self tx ty bx by_ (PyRgba (rgba.new r g b 255))
             (r, g, b, 255) eq_refl). lia.
Qed.

Section DemoRuns.

Context {rng : Type} (draw : Z -> Z -> rng -> Z * rng) (np : numpy).
Hypothesis Hdraw : draws_in_range draw.

Lemma bind_returns {A B} (m : main.D rng A) (k : A -> main.D rng B) s v s'
    (Q : B -> Prop) :
  m s = (Ok v, s') ->
  (exists r s'', k v s' = (Ok r, s'') /\ Q r) ->
  exists r s'', main.bind rng m k s = (Ok r, s'') /\ Q r.
Proof. intros Hm Hk. unfold main.bind. rewrite Hm. exact Hk. Qed.

Lemma call_returns (m : Image.M unit) image image' s (Q : Image.t -> Prop) :
  m image = (Ok tt, image') -> Q image' ->
  exists r s'', main.call rng m image s = (Ok r, s'') /\ Q r.
Proof. intros Hm HQ. unfold main.call. rewrite Hm. eauto. Qed.

Lemma line_step_ok image s :
  demo_image image ->
  exists image' s',
    main.bind rng (main.rand_pos rng draw 512 512) (fun '(sx, sy) =>
    main.bind rng (main.rand_pos rng draw 512 512) (fun '(ex, ey) =>
    main.bind rng (main.rand_rgb rng draw) (fun color =>
    main.call rng (Image.line np sx sy ex ey (PyRgba color)) image))) s
    = (Ok image', s') /\ demo_image image'.
Proof.
  intros Hdemo.
  destruct (rand_pos_ok draw Hdraw 512 512 s ltac:(lia) ltac:(lia))
    as (sx & sy & s1 & Hp1 & Hsx & Hsy).
  eapply bind_returns; [exact Hp1 |]. cbv beta iota.
  destruct (rand_pos_ok draw Hdraw 512 512 s1 ltac:(lia) ltac:(lia))
    as (ex & ey & s2 & Hp2 & Hex & Hey).
  eapply bind_returns; [exact Hp2 |]. cbv beta iota.
  destruct (rand_rgb_ok draw Hdraw s2) as (r & g & b & s3 & Hc & Hvalid).
  eapply bind_returns; [exact Hc |].
  destruct (demo_image_line np sx sy ex ey r g b image Hdemo Hsx Hsy Hex Hey Hvalid)
    as (image' & Hline & Hdemo').
  eapply call_returns; eassumption.
Qed.

Lemma rectangle_step_ok img s :
  demo_image img ->
  exists img' s',
    main.bind rng (main.rand_pos rng draw 512 512) (fun '(x1, y1) =>
    main.bind rng (main.rand_pos rng draw 512 512) (fun '(x2, y2) =>
    main.bind rng (main.rand_rgb rng draw) (fun color =>
    main.call rng (Image.rectangle np x1 y1 x2 y2 (PyRgba color)) img))) s
    = (Ok img', s') /\ demo_image img'.
Proof.
  intros Hdemo.
  destruct (rand_pos_ok draw Hdraw 512 512 s ltac:(lia) ltac:(lia))
    as (x1 & y1 & s1 & Hp1 & _ & _).
  eapply bind_returns; [exact Hp1 |]. cbv beta iota.
  destruct (rand_pos_ok draw Hdraw 512 512 s1 ltac:(lia) ltac:(lia))
    as (x2 & y2 & s2 & Hp2 & _ & _).
  eapply bind_returns; [exact Hp2 |]. cbv beta iota.
  destruct (rand_rgb_ok draw Hdraw s2) as (r & g & b & s3 & Hc & Hvalid).
  eapply bind_returns; [exact Hc |].
  destruct (demo_image_rectangle np x1 y1 x2 y2 r g b img Hdemo Hvalid)
    as (img' & Hrect & Hdemo').
  eapply call_returns; eassumption.
Qed.

Lemma pixel_step_ok x y img s :
  demo_image img -> 0 <= x < 512 -> 0 <= y < 512 ->
  exists img' s',
    main.bind rng (main.rand_rgb rng draw) (fun color =>
    main.call rng (Image.set_pixel np x y (PyRgba color)) img) s
    = (Ok img', s') /\ demo_image img'.
Proof.
  intros Hdemo Hx Hy.
  destruct (rand_rgb_ok draw Hdraw s) as (r & g & b & s1 & Hc & Hvalid).
  eapply bind_returns; [exact Hc |].
  destruct (demo_image_set_pixel np x y r g b img Hdemo Hx Hy Hvalid)
    as (img' & Hset & Hdemo').
  eapply call_returns; eassumption.
Qed.

Lemma frame_ok img s :
  demo_image img ->
  exists img' s',
    main.for_ rng (seqZ 0 (Image.width img)) (fun y img =>
      main.for_ rng (seqZ 0 (Image.width img)) (fun x img =>
        main.bind rng (main.rand_rgb rng draw) (fun color =>
        main.call rng (Image.set_pixel np x y (PyRgba color)) img)) img) img s
    = (Ok img', s') /\ demo_image img'.
Proof.
  intros Hdemo. pose proof Hdemo as (_ & Hw & _).
  apply (for_invariant demo_image (fun y => 0 <= y < 512)); [| | assumption].
  - intros y img1 s1 Hy Hdemo1. pose proof Hdemo1 as (_ & Hw1 & _).
    apply (for_invariant demo_image (fun x => 0 <= x < 512)); [| | assumption].
    + intros x img2 s2 Hx Hdemo2. by apply pixel_step_ok.
    + apply Forall_seqZ. intros x Hx. lia.
  - apply Forall_seqZ. intros y Hy. lia.
Qed.

End DemoRuns.

Lemma lowest_draw_in_range : draws_in_range lowest_draw.
Proof. intros a b s Hab. simpl. lia. Qed.

(** X18: [rand_rgb] never raises: whatever the generator returns within
    [randint]'s range, the three samples pass the channel check of the
    dataclass, and the color is opaque (alpha 255) and valid for every
    drawing operation. *)
Theorem rand_rgb_always_valid {rng : Type} (draw : Z -> Z -> rng -> Z * rng) s :
  draws_in_range draw ->
  exists c s',
    main.rand_rgb rng draw s = (Ok c, s') /\
    rgba.a c = 255 /\
    valid_pixel (rgba.as_tuple c) = true /\
    Image._validate_rgba (PyRgba c) = Ok (rgba.as_tuple c).
Proof.
  intros Hdraw.
  destruct (rand_rgb_ok draw Hdraw s) as (r & g & b & s' & Hc & Hvalid).
  exists (rgba.new r g b 255), s'. auto.
Qed.

Lemma rand_rgb_always_valid_witness :
  draws_in_range lowest_draw /\
  exists c s',
    main.rand_rgb unit lowest_draw tt = (Ok c, s') /\
    rgba.a c = 255 /\
    valid_pixel (rgba.as_tuple c) = true /\
    Image._validate_rgba (PyRgba c) = Ok (rgba.as_tuple c).
Proof.
  split; [exact lowest_draw_in_range |].
  exact (rand_rgb_always_valid lowest_draw tt lowest_draw_in_range).
Defined.

(** X19: for positive dimensions [rand_pos] returns a coordinate with
    [0 <= x < width] and [0 <= y < height], a pixel of every image of these
    dimensions; when a dimension is zero or negative it raises the
    [ValueError] of [randint] on an empty range. *)
Theorem rand_pos_is_a_pixel {rng : Type} (draw : Z -> Z -> rng -> Z * rng)
    width height s :
  draws_in_range draw ->
  (1 <= width -> 1 <= height ->
   exists x y s',
     main.rand_pos rng draw width height s = (Ok (x, y), s') /\
     0 <= x < width /\ 0 <= y < height /\
     forall self, Image.width self = width -> Image.height self = height ->
       inside self (x, y) = true) /\
  (width <= 0 \/ height <= 0 ->
   exists msg, fst (main.rand_pos rng draw width height s) = Raise (ValueError msg)).
Proof.
  intros Hdraw. split.
  - intros Hw Hh.
    destruct (rand_pos_ok draw Hdraw width height s Hw Hh)
      as (x & y & s' & Hpos & Hx & Hy).
    exists x, y, s'. split; [assumption | split; [assumption | split; [assumption |]]].
    intros self Hsw Hsh. apply inside_spec. lia.
  - intros Hempty. unfold main.rand_pos, main.bind.
    destruct (Z.ltb_spec (width - 1) 0) as [Hw | Hw].
    + unfold main.randint at 1.
      replace (width - 1 <? 0) with true by (symmetry; apply Z.ltb_lt; lia).
      cbn [fst]. eauto.
    + destruct (randint_in_range draw Hdraw 0 (width - 1) s Hw) as (x & s1 & -> & _).
      unfold main.randint.
      replace (height - 1 <? 0) with true by (symmetry; apply Z.ltb_lt; lia).
      cbn [fst]. eauto.
Qed.

Lemma rand_pos_is_a_pixel_witness :
  draws_in_range lowest_draw /\
  exists x y s',
    main.rand_pos unit lowest_draw 512 512 tt = (Ok (x, y), s') /\
    0 <= x < 512 /\ 0 <= y < 512 /\
    forall self, Image.width self = 512 -> Image.height self = 512 ->
      inside self (x, y) = true.
Proof.
  split; [exact lowest_draw_in_range |].
  apply (rand_pos_is_a_pixel lowest_draw 512 512 tt lowest_draw_in_range); lia.
Defined.

(** X20: [create_line_image] never raises: each of its 1000 lines joins
    two pixels of the 512 by 512 image with a valid color, so every [line]
    call returns, and the image handed to [save] as "lines_image.png" is
    512 by 512, well shaped and opaque. *)
Theorem create_line_image_returns {rng : Type} (draw : Z -> Z -> rng -> Z * rng)
    np s :
  draws_in_range draw ->
  exists image s',
    main.create_line_image rng draw np s = (Ok ("lines_image.png", image), s') /\
    demo_image image.
Proof.
  intros Hdraw. unfold main.create_line_image. cbv zeta.
  destruct (demo_image_init np) as (image0 & Hinit & Hdemo0).
  destruct (for_invariant demo_image (fun _ : Z => True) (seqZ 0 1000)
              (fun (_ : Z) image =>
                 main.bind rng (main.rand_pos rng draw 512 512) (fun '(sx, sy) =>
                 main.bind rng (main.rand_pos rng draw 512 512) (fun '(ex, ey) =>
                 main.bind rng (main.rand_rgb rng draw) (fun color =>
                 main.call rng (Image.line np sx sy ex ey (PyRgba color)) image))))
              (fun _ image1 s1 _ Hd => line_step_ok draw np Hdraw image1 s1 Hd)
              ltac:(apply Forall_forall; auto) image0 s Hdemo0)
    as (image & s' & Hloop & Hdemo).
  exists image, s'. split; [| assumption].
  unfold main.bind at 1, main.lift. rewrite Hinit.
  unfold main.bind at 1. rewrite Hloop. reflexivity.
Qed.

Lemma create_line_image_returns_witness :
  draws_in_range lowest_draw /\
  exists image s',
    main.create_line_image unit lowest_draw numpy2 tt =
      (Ok ("lines_image.png", image), s') /\
    demo_image image.
Proof.
  split; [exact lowest_draw_in_range |].
  exact (create_line_image_returns lowest_draw numpy2 tt lowest_draw_in_range).
Defined.

(** X21: [create_rectangle_image] never raises: its 300 rectangles are
    filled with valid colors, and the image handed to [save] as
    "rectangles_image.png" is 512 by 512, well shaped and opaque. *)
Theorem create_rectangle_image_returns {rng : Type}
    (draw : Z -> Z -> rng -> Z * rng) np s :
  draws_in_range draw ->
  exists img s',
    main.create_rectangle_image rng draw np s =
      (Ok ("rectangles_image.png", img), s') /\
    demo_image img.
Proof.
  intros Hdraw. unfold main.create_rectangle_image. cbv zeta.
  destruct (demo_image_init np) as (img0 & Hinit & Hdemo0).
  destruct (for_invariant demo_image (fun _ : Z => True) (seqZ 0 300)
              (fun (_ : Z) img =>
                 main.bind rng (main.rand_pos rng draw 512 512) (fun '(x1, y1) =>
                 main.bind rng (main.rand_pos rng draw 512 512) (fun '(x2, y2) =>
                 main.bind rng (main.rand_rgb rng draw) (fun color =>
                 main.call rng (Image.rectangle np x1 y1 x2 y2 (PyRgba color)) img))))
              (fun _ img1 s1 _ Hd => rectangle_step_ok draw np Hdraw img1 s1 Hd)
              ltac:(apply Forall_forall; auto) img0 s Hdemo0)
    as (img & s' & Hloop & Hdemo).
  exists img, s'. split; [| assumption].
  unfold main.bind at 1, main.lift. rewrite Hinit.
  unfold main.bind at 1. rewrite Hloop. reflexivity.
Qed.

Lemma create_rectangle_image_returns_witness :
  draws_in_range lowest_draw /\
  exists img s',
    main.create_rectangle_image unit lowest_draw numpy2 tt =
      (Ok ("rectangles_image.png", img), s') /\
    demo_image img.
Proof.
  split; [exact lowest_draw_in_range |].
  exact (create_rectangle_image_returns lowest_draw numpy2 tt lowest_draw_in_range).
Defined.

(** X22: [create_image], which [main] runs, never raises: in both frames
    every [set_pixel] addresses a pixel of the 512 by 512 image with a valid
    color; the two images are handed to [save] as "test0000.png" and
    "test0001.png", each 512 by 512, well shaped and opaque. *)
Theorem create_image_returns {rng : Type} (draw : Z -> Z -> rng -> Z * rng) np s :
  draws_in_range draw ->
  exists img0 img1 s',
    main.main rng draw np s =
      (Ok [("test0000.png", img0); ("test0001.png", img1)], s') /\
    demo_image img0 /\ demo_image img1.
Proof.
  intros Hdraw. unfold main.main, main.create_image.
  change (seqZ 0 2) with [0; 1].
  match goal with
  | |- context [main.for_ rng [0; 1] ?f []] => set (body := f)
  end.
  assert (Hbody : forall frame saved s0,
    exists img s1,
      body frame saved s0 =
        (Ok (saved ++ [("test" +:+ main.format_04 frame +:+ ".png", img)])%list, s1) /\
      demo_image img).
  { intros frame saved s0. subst body. cbv beta.
    destruct (demo_image_init np) as (img_new & Hinit & Hdemo0).
    destruct (frame_ok draw np Hdraw img_new s0 Hdemo0) as (img & s1 & Hloop & Hdemo).
    exists img, s1. split; [| assumption].
    unfold main.bind at 1, main.lift. rewrite Hinit.
    unfold main.bind at 1. rewrite Hloop. reflexivity. }
  destruct (Hbody 0 [] s) as (img0 & s1 & H0 & Hd0).
  destruct (Hbody 1 ([] ++ [("test" +:+ main.format_04 0 +:+ ".png", img0)])%list s1)
    as (img1 & s2 & H1 & Hd1).
  exists img0, img1, s2. split; [| auto].
  cbn [main.for_]. unfold main.bind at 1. rewrite H0.
  unfold main.bind at 1. rewrite H1. reflexivity.
Qed.

Lemma create_image_returns_witness :
  draws_in_range lowest_draw /\
  exists img0 img1 s',
    main.main unit lowest_draw numpy2 tt =
      (Ok [("test0000.png", img0); ("test0001.png", img1)], s') /\
    demo_image img0 /\ demo_image img1.
Proof.
  split; [exact lowest_draw_in_range |].
  exact (create_image_returns lowest_draw numpy2 tt lowest_draw_in_range).
Defined.
